(** * serverless-expense-api: the Lambda handler of [lambda_function.py]

    A shallow embedding of the expense handler: the four validators, the
    payload parser, the sheet writer, the response builder and the handler,
    followed by the properties of the specification that concern them.

    Conventions of the embedding.
    - A Python [str] is a Rocq [string] holding its UTF-8 encoding.  Equality
      of strings, concatenation and membership in a list of strings are the
      same on code points and on their UTF-8 bytes.  The character classes
      that Python's [re] and [str.strip] take from the Unicode database are
      restricted to what the handler's formats use: ASCII digits for [\d],
      and the complete list of [str.isspace] code points for whitespace.
    - Python exceptions are values of [exn]; a function that may raise
      returns [result A], and [try ... except] is [try_except].
    - A JSON value is a [pyval].  A Python [float] is kept abstract: the
      program only observes its truth value and its [str].  [repr] of a
      string escapes the ASCII control characters; the characters beyond
      ASCII are kept as they are.
    - Decimal arithmetic is that of the decimal specification, exact and
      without a bound: the limits that an implementation puts on the size
      of an exponent or of a coefficient, and the exhaustion of memory,
      are outside the embedding.
    - The worksheet is read as gspread 6 reads it.
    - Calls to [logger] do not influence any returned value and are left
      out, but for the evaluation of their arguments where it can raise:
      [json.dumps(event)] in the first statement of [lambda_handler]. *)

From Stdlib Require Import String Ascii ZArith List Lia.
From Stdlib Require Import Decimal DecimalString DecimalNat DecimalZ.
From stdpp Require Import gmap strings list.

Open Scope string_scope.

(** ** Strings *)

Module Str.

Definition chr (n : nat) : string := String (ascii_of_nat n) EmptyString.

(** The double quote, the backslash and the line feed, which are not
    written inside literals. *)
Definition dquote : string := chr 34.
Definition backslash : string := chr 92.
Definition newline : string := chr 10.

Definition of_nat (n : nat) : string := NilZero.string_of_uint (Nat.to_uint n).
Definition of_Z (z : Z) : string := NilZero.string_of_int (Z.to_int z).

(** [", ".join(l)] *)
Definition join (sep : string) (l : list string) : string := String.concat sep l.

(** [s.replace(a, b)] for single characters. *)
Fixpoint replace (a b : ascii) (s : string) : string :=
  match s with
  | EmptyString => EmptyString
  | String c s' => String (if Ascii.eqb c a then b else c) (replace a b s')
  end.

(** [s.replace(a, "")] for a single character. *)
Fixpoint remove (a : ascii) (s : string) : string :=
  match s with
  | EmptyString => EmptyString
  | String c s' => if Ascii.eqb c a then remove a s' else String c (remove a s')
  end.

Fixpoint contains (a : ascii) (s : string) : bool :=
  match s with
  | EmptyString => false
  | String c s' => Ascii.eqb c a || contains a s'
  end.

Definition is_empty (s : string) : bool :=
  match s with EmptyString => true | String _ _ => false end.

(** The code points for which [str.isspace] holds, in UTF-8:
    U+0009..U+000D, U+001C..U+0020, U+0085, U+00A0, U+1680,
    U+2000..U+200A, U+2028, U+2029, U+202F, U+205F, U+3000. *)
Definition whitespace : list (list nat) :=
  [ [9]; [10]; [11]; [12]; [13]; [28]; [29]; [30]; [31]; [32];
    [194; 133]; [194; 160]; [225; 154; 128];
    [226; 128; 128]; [226; 128; 129]; [226; 128; 130]; [226; 128; 131];
    [226; 128; 132]; [226; 128; 133]; [226; 128; 134]; [226; 128; 135];
    [226; 128; 136]; [226; 128; 137]; [226; 128; 138];
    [226; 128; 168]; [226; 128; 169]; [226; 128; 175];
    [226; 129; 159]; [227; 128; 128] ].

(** [drop_prefix p s]: what follows [p] at the head of [s]. *)
Fixpoint drop_prefix (p : list nat) (s : list ascii) : option (list ascii) :=
  match p, s with
  | [], _ => Some s
  | n :: p', c :: s' => if Nat.eqb (nat_of_ascii c) n then drop_prefix p' s' else None
  | _ :: _, [] => None
  end.

Fixpoint drop_any (pats : list (list nat)) (s : list ascii) : option (list ascii) :=
  match pats with
  | [] => None
  | p :: rest =>
      match drop_prefix p s with
      | Some s' => Some s'
      | None => drop_any rest s
      end
  end.

Fixpoint drop_while (fuel : nat) (pats : list (list nat)) (s : list ascii) : list ascii :=
  match fuel with
  | O => s
  | S fuel' =>
      match drop_any pats s with
      | Some s' => drop_while fuel' pats s'
      | None => s
      end
  end.

Definition lstrip_list (s : list ascii) : list ascii :=
  drop_while (length s) whitespace s.

(** Trailing whitespace is leading whitespace of the reversed bytes,
    matched against the reversed encodings. *)
Definition rstrip_list (s : list ascii) : list ascii :=
  rev (drop_while (length s) (map (@rev nat) whitespace) (rev s)).

(** [s.strip()] *)
Definition strip (s : string) : string :=
  string_of_list_ascii (rstrip_list (lstrip_list (list_ascii_of_string s))).

Definition hex_digit (n : nat) : string :=
  chr (if Nat.ltb n 10 then 48 + n else 87 + n).

Definition hex2 (n : nat) : string := hex_digit (n / 16) +:+ hex_digit (n mod 16).

Fixpoint flat_map_chars (f : ascii -> string) (s : string) : string :=
  match s with
  | EmptyString => EmptyString
  | String c s' => f c +:+ flat_map_chars f s'
  end.

(** The character [c] written [n] times. *)
Fixpoint repeated (c : ascii) (n : nat) : string :=
  match n with
  | O => EmptyString
  | S k => String c (repeated c k)
  end.

(** The number of times [c] stands at the head of [s]. *)
Fixpoint leading (c : ascii) (s : string) : nat :=
  match s with
  | String a rest => if Ascii.eqb a c then S (leading c rest) else 0
  | EmptyString => 0
  end.

End Str.

(** ** Exceptions *)

Inductive exc_class :=
| ExpenseError | JSONDecodeError | KeyError | AttributeError | TypeError
| ValueError | InvalidOperation | APIError | RecursionError | Exception.

Definition exc_class_eqb (a b : exc_class) : bool :=
  match a, b with
  | ExpenseError, ExpenseError | JSONDecodeError, JSONDecodeError
  | KeyError, KeyError | AttributeError, AttributeError
  | TypeError, TypeError | ValueError, ValueError
  | InvalidOperation, InvalidOperation | APIError, APIError
  | RecursionError, RecursionError | Exception, Exception => true
  | _, _ => false
  end.

(** [issubclass a b] for the classes above: every class derives from
    [Exception], and [json.JSONDecodeError] derives from [ValueError]. *)
Definition issubclass (a b : exc_class) : bool :=
  match b with
  | Exception => true
  | ValueError => match a with ValueError | JSONDecodeError => true | _ => false end
  | _ => exc_class_eqb a b
  end.

(** An exception instance: its class and [str(e)]. *)
Record exn := Exn { exn_class : exc_class; exn_str : string }.

(** What a call produces: a value, or a raised exception. *)
Inductive result (A : Type) : Type :=
| Ok (a : A)
| Raise (e : exn).

Arguments Ok {A} a.
Arguments Raise {A} e.

Definition raise {A} (c : exc_class) (msg : string) : result A := Raise (Exn c msg).

Definition bind {A B} (m : result A) (k : A -> result B) : result B :=
  match m with
  | Raise e => Raise e
  | Ok a => k a
  end.

Declare Scope result_scope.
Delimit Scope result_scope with result.
Notation "x <- m ;; k" := (bind m (fun x => k))
  (at level 100, m at next level, right associativity) : result_scope.

(** [isinstance(e, classes)] *)
Definition catches (classes : list exc_class) (e : exn) : bool :=
  existsb (issubclass (exn_class e)) classes.

(** The first [except] clause that catches [e]. *)
Fixpoint find_clause {H} (clauses : list (list exc_class * H)) (e : exn) : option H :=
  match clauses with
  | [] => None
  | (classes, h) :: rest => if catches classes e then Some h else find_clause rest e
  end.

(** [try: m except classes1 as e: h1 e except classes2 as e: h2 e ...] *)
Definition try_except {A} (m : result A)
    (clauses : list (list exc_class * (exn -> result A))) : result A :=
  match m with
  | Raise e =>
      match find_clause clauses e with
      | Some h => h e
      | None => Raise e
      end
  | Ok a => Ok a
  end.

(** ** Python values *)

Set Warnings "-register-all".

Record pyfloat := PyFloat { float_str : string; float_nonzero : bool }.

Inductive pyval :=
| PNone
| PBool (b : bool)
| PInt (z : Z)
| PFloat (f : pyfloat)
| PStr (s : string)
| PList (items : list pyval)
| PDict (items : list (string * pyval)).

(** [bool(v)] *)
Definition truthy (v : pyval) : bool :=
  match v with
  | PNone => false
  | PBool b => b
  | PInt z => negb (Z.eqb z 0)
  | PFloat f => float_nonzero f
  | PStr s => negb (Str.is_empty s)
  | PList l => match l with [] => false | _ => true end
  | PDict d => match d with [] => false | _ => true end
  end.

(** [repr(s)] of a string: single quotes unless the string has a single
    quote and no double quote; backslash, the chosen quote, tab, line feed
    and carriage return are escaped, the other ASCII control characters are
    written [\xNN], every other byte is kept. *)
Definition repr_char (quote : ascii) (c : ascii) : string :=
  let n := nat_of_ascii c in
  if Nat.eqb n 92 then Str.backslash +:+ Str.backslash
  else if Ascii.eqb c quote then Str.backslash +:+ String c EmptyString
  else if Nat.eqb n 9 then Str.backslash +:+ "t"
  else if Nat.eqb n 10 then Str.backslash +:+ "n"
  else if Nat.eqb n 13 then Str.backslash +:+ "r"
  else if Nat.ltb n 32 || Nat.eqb n 127 then Str.backslash +:+ "x" +:+ Str.hex2 n
  else String c EmptyString.

Definition repr_str (s : string) : string :=
  let quote :=
    if Str.contains "'"%char s && negb (Str.contains (ascii_of_nat 34) s)
    then ascii_of_nat 34 else "'"%char in
  String quote EmptyString +:+ Str.flat_map_chars (repr_char quote) s
    +:+ String quote EmptyString.

Fixpoint py_repr (v : pyval) : string :=
  match v with
  | PNone => "None"
  | PBool true => "True"
  | PBool false => "False"
  | PInt z => Str.of_Z z
  | PFloat f => float_str f
  | PStr s => repr_str s
  | PList l => "[" +:+ Str.join ", " (map py_repr l) +:+ "]"
  | PDict d =>
      "{" +:+ Str.join ", "
        (map (fun kv => repr_str (fst kv) +:+ ": " +:+ py_repr (snd kv)) d) +:+ "}"
  end.

(** [str(v)] *)
Definition py_str (v : pyval) : string :=
  match v with
  | PStr s => s
  | _ => py_repr v
  end.

(** [d.get(key)] on the items of a dict. *)
Fixpoint dict_get (d : list (string * pyval)) (key : string) : option pyval :=
  match d with
  | [] => None
  | (k, v) :: rest => if String.eqb k key then Some v else dict_get rest key
  end.

(** The name Python prints for the type of a value. *)
Definition type_name (v : pyval) : string :=
  match v with
  | PNone => "NoneType"
  | PBool _ => "bool"
  | PInt _ => "int"
  | PFloat _ => "float"
  | PStr _ => "str"
  | PList _ => "list"
  | PDict _ => "dict"
  end.

(** [v.get(key, default)]: only a dict has the method. *)
Definition py_get (v : pyval) (key : string) (default : pyval) : result pyval :=
  match v with
  | PDict d => Ok (match dict_get d key with Some x => x | None => default end)
  | _ => raise AttributeError ("'" +:+ type_name v +:+ "' object has no attribute 'get'")
  end.

(** ** Validators *)

Definition VALID_CATEGORIES : list string :=
  [ "Criptomonedas";
    "Fintual";
    "Agua";
    "Arriendo";
    "Gasto Común";
    "Internet";
    "Luz";
    "Almuerzo";
    "Comision BC";
    "Familia";
    "Farmacia";
    "Metro";
    "Otros";
    "Recreacional";
    "Regalos";
    "Ropa";
    "Supermercado";
    "Transporte";
    "Vacaciones";
    "Apps";
    "Eventos";
    "Electronica";
    "Hogar";
    "Limpieza";
    "Ingreso" ].

(** [category in VALID_CATEGORIES] *)
Definition str_in (s : string) (l : list string) : bool := existsb (String.eqb s) l.

Definition validate_category (category : string) : result string :=
  if negb (str_in category VALID_CATEGORIES) then
    raise ExpenseError
      ("Categoría inválida. Opciones: " +:+ Str.join ", " VALID_CATEGORIES)
  else Ok category.

Definition validate_field (value : pyval) (field_name : string) : result string :=
  if negb (truthy value) || negb (truthy (PStr (Str.strip (py_str value)))) then
    raise ExpenseError ("El campo '" +:+ field_name +:+ "' es requerido")
  else Ok (Str.strip (py_str value)).


(** *** [datetime.strptime(s, "%d-%m-%Y")]

    [_strptime] turns the format into the regular expression
    [(?P<d>3[0-1]|[1-2]\d|0[1-9]|[1-9]| [1-9])-(?P<m>1[0-2]|0[1-9]|[1-9])-(?P<Y>\d\d\d\d)],
    matches it at the start of the input, rejects input with text left after
    the match, and builds the date, which rejects a day or a year out of
    range. *)

Module Strptime.

Definition is_digit (c : ascii) : bool :=
  let n := nat_of_ascii c in Nat.leb 48 n && Nat.leb n 57.

Definition digit (c : ascii) : nat := nat_of_ascii c - 48.

Definition between (lo hi : nat) (c : ascii) : bool :=
  is_digit c && Nat.leb lo (digit c) && Nat.leb (digit c) hi.

(** A fragment of the expression: on the remaining input, its matches
    with what follows each, in the order in which the engine tries
    them. *)
Definition matcher (A : Type) : Type := list ascii -> list (A * list ascii).

Definition two_digits (p1 p2 : ascii -> bool) : matcher nat := fun s =>
  match s with
  | a :: b :: r => if p1 a && p2 b then [(10 * digit a + digit b, r)] else []
  | _ => []
  end.

Definition one_digit (p : ascii -> bool) : matcher nat := fun s =>
  match s with
  | a :: r => if p a then [(digit a, r)] else []
  | _ => []
  end.

Definition space_digit (p : ascii -> bool) : matcher nat := fun s =>
  match s with
  | a :: b :: r => if Ascii.eqb a " "%char && p b then [(digit b, r)] else []
  | _ => []
  end.

Definition alt {A} (ms : list (matcher A)) : matcher A := fun s =>
  flat_map (fun m => m s) ms.

Definition lit (c : ascii) : matcher unit := fun s =>
  match s with
  | a :: r => if Ascii.eqb a c then [(tt, r)] else []
  | _ => []
  end.

Definition seq_ {A B} (m : matcher A) (k : A -> matcher B) : matcher B := fun s =>
  flat_map (fun ar => k (fst ar) (snd ar)) (m s).

(** [%d] *)
Definition day_re : matcher nat :=
  alt [ two_digits (between 3 3) (between 0 1);
        two_digits (between 1 2) is_digit;
        two_digits (between 0 0) (between 1 9);
        one_digit (between 1 9);
        space_digit (between 1 9) ].

(** [%m] *)
Definition month_re : matcher nat :=
  alt [ two_digits (between 1 1) (between 0 2);
        two_digits (between 0 0) (between 1 9);
        one_digit (between 1 9) ].

(** [%Y] *)
Definition year_re : matcher nat := fun s =>
  match s with
  | a :: b :: c :: d :: r =>
      if is_digit a && is_digit b && is_digit c && is_digit d
      then [(1000 * digit a + 100 * digit b + 10 * digit c + digit d, r)]
      else []
  | _ => []
  end.

Definition format_re : matcher (nat * nat * nat) :=
  seq_ day_re (fun d =>
  seq_ (lit "-"%char) (fun _ =>
  seq_ month_re (fun m =>
  seq_ (lit "-"%char) (fun _ =>
  seq_ year_re (fun y s => [((d, m, y), s)]))))).

Definition is_leap (year : nat) : bool :=
  Nat.eqb (year mod 4) 0 && (negb (Nat.eqb (year mod 100) 0) || Nat.eqb (year mod 400) 0).

Definition days_in_month (year month : nat) : nat :=
  match month with
  | 2 => if is_leap year then 29 else 28
  | 4 | 6 | 9 | 11 => 30
  | _ => 31
  end.

Record date := Date { year : nat; month : nat; day : nat }.

Definition strptime (data_string : string) : result date :=
  match format_re (list_ascii_of_string data_string) with
  | [] =>
      raise ValueError
        ("time data " +:+ repr_str data_string +:+ " does not match format '%d-%m-%Y'")
  | ((d, m, y), rest) :: _ =>
      match rest with
      | _ :: _ =>
          raise ValueError
            ("unconverted data remains: " +:+ string_of_list_ascii rest)
      | [] =>
          if Nat.eqb y 0 then raise ValueError "year 0 is out of range"
          else if Nat.ltb (days_in_month y m) d
          then raise ValueError "day is out of range for month"
          else Ok (Date y m d)
      end
  end.

End Strptime.

Local Open Scope result_scope.

Definition validate_date (date_str : string) : result string :=
  try_except
    (_ <- Strptime.strptime date_str;;
     Ok date_str)
    [ ([ValueError], fun _ =>
         raise ExpenseError
           ("Fecha inválida: " +:+ date_str +:+ ". Use formato DD-MM-YYYY")) ].

(** *** [decimal.Decimal]

    The constructor from a string, the comparison with zero and
    [format(d, ".2f")] under the default context (rounding
    [ROUND_HALF_EVEN], [InvalidOperation] trapped). *)

Module Decimal.

Inductive t :=
| Finite (negative : bool) (coefficient : Z) (exponent : Z)
| Infinity (negative : bool)
| NaN (negative : bool).

Definition is_digit := Strptime.is_digit.

Definition digit (c : ascii) : Z := Z.of_nat (Strptime.digit c).

(** The longest run of digits at the head of the input, and the rest. *)
Fixpoint span_digits (s : list ascii) : list ascii * list ascii :=
  match s with
  | c :: r =>
      if is_digit c then let (ds, rest) := span_digits r in (c :: ds, rest)
      else ([], s)
  | [] => ([], [])
  end.

(** [int(digits)], with [int("")] read as [0]. *)
Definition int_of_digits (ds : list ascii) : Z :=
  fold_left (fun acc c => 10 * acc + digit c)%Z ds 0%Z.

Definition lower (c : ascii) : ascii :=
  let n := nat_of_ascii c in
  if Nat.leb 65 n && Nat.leb n 90 then ascii_of_nat (n + 32) else c.

Definition take_sign (s : list ascii) : bool * list ascii :=
  match s with
  | c :: r =>
      if Ascii.eqb c "-"%char then (true, r)
      else if Ascii.eqb c "+"%char then (false, r)
      else (false, s)
  | [] => (false, [])
  end.

(** The optional exponent, up to the end of the input: [E], an optional
    sign, one digit or more. *)
Definition parse_exponent (s : list ascii) : option Z :=
  match s with
  | [] => Some 0%Z
  | c :: r =>
      if Ascii.eqb (lower c) "e"%char then
        let (neg, r1) := take_sign r in
        let (ds, r2) := span_digits r1 in
        match ds, r2 with
        | _ :: _, [] => Some (if neg then - int_of_digits ds else int_of_digits ds)%Z
        | _, _ => None
        end
      else None
  end.

(** A number: digits, then optionally a point and digits, with a digit
    in at least one of the two runs, then optionally an exponent, up to
    the end of the input.  The result is the coefficient and the
    exponent. *)
Definition parse_number (s : list ascii) : option (Z * Z) :=
  let (intpart, r1) := span_digits s in
  let '(fracpart, r2) :=
    match r1 with
    | c :: r => if Ascii.eqb c "."%char then span_digits r else ([], r1)
    | [] => ([], r1)
    end in
  match intpart, fracpart with
  | [], [] => None
  | _, _ =>
      match parse_exponent r2 with
      | Some e =>
          Some (int_of_digits (intpart ++ fracpart),
                (e - Z.of_nat (length fracpart))%Z)
      | None => None
      end
  end.

(** An infinity ([Inf] or [Infinity]) or a NaN (an optional [s], [NaN],
    then diagnostic digits), ignoring case. *)
Definition parse_special (negative : bool) (s : list ascii) : option t :=
  let l := string_of_list_ascii (map lower s) in
  if String.eqb l "inf" || String.eqb l "infinity" then Some (Infinity negative)
  else
    let body :=
      match map lower s with
      | c :: r => if Ascii.eqb c "s"%char then r else map lower s
      | [] => []
      end in
    match body with
    | n1 :: a :: n2 :: diag =>
        if Ascii.eqb n1 "n"%char && Ascii.eqb a "a"%char && Ascii.eqb n2 "n"%char
           && forallb is_digit diag
        then Some (NaN negative) else None
    | _ => None
    end.

(** [Decimal(value)] for a string: surrounding whitespace and every
    underscore are dropped first. *)
Definition of_string (value : string) : result t :=
  let s := list_ascii_of_string (Str.remove "_"%char (Str.strip value)) in
  let (negative, body) := take_sign s in
  match parse_number body with
  | Some (c, e) => Ok (Finite negative c e)
  | None =>
      match parse_special negative body with
      | Some d => Ok d
      | None =>
          raise InvalidOperation "[<class 'decimal.ConversionSyntax'>]"
      end
  end.

(** [d <= 0]: an ordering comparison with a NaN signals
    [InvalidOperation]. *)
Definition le_zero (d : t) : result bool :=
  match d with
  | Finite negative c _ => Ok (Z.eqb c 0 || negative)
  | Infinity negative => Ok negative
  | NaN _ => raise InvalidOperation "[<class 'decimal.InvalidOperation'>]"
  end.

(** The coefficient of [c * 10^e] rescaled to exponent [-2], rounding
    half to even. *)
Definition rescale2 (c e : Z) : Z :=
  if (-2 <=? e)%Z then (c * 10 ^ (e + 2))%Z
  else
    let d := (10 ^ (- 2 - e))%Z in
    let q := (c / d)%Z in
    let r := (c mod d)%Z in
    if (d <? 2 * r)%Z then (q + 1)%Z
    else if (2 * r =? d)%Z then (if Z.even q then q else q + 1)%Z
    else q.

Definition two_digits (n : Z) : string :=
  if (n <? 10)%Z then "0" +:+ Str.of_Z n else Str.of_Z n.

Definition sign_str (negative : bool) : string :=
  if negative then "-" else EmptyString.

(** [f"{d:.2f}"] *)
Definition format_2f (d : t) : string :=
  match d with
  | Finite negative c e =>
      let q := rescale2 c e in
      sign_str negative +:+ Str.of_Z (q / 100) +:+ "." +:+ two_digits (q mod 100)
  | Infinity negative => sign_str negative +:+ "Infinity"
  | NaN negative => sign_str negative +:+ "NaN"
  end.

End Decimal.

Definition validate_amount (amount : string) : result string :=
  try_except
    (decimal_amount <- Decimal.of_string (Str.replace ","%char "."%char amount);;
     nonpositive <- Decimal.le_zero decimal_amount;;
     if (nonpositive : bool) then raise ExpenseError "El monto debe ser mayor a cero"
     else Ok (Decimal.format_2f decimal_amount))
    [ ([InvalidOperation; ValueError], fun _ =>
         raise ExpenseError ("Monto inválido: " +:+ amount)) ].


(** ** Payload parser *)

(** [v[key]] *)
Definition py_getitem (v : pyval) (key : string) : result pyval :=
  match v with
  | PDict d =>
      match dict_get d key with
      | Some x => Ok x
      | None => raise KeyError (repr_str key)
      end
  | _ => raise TypeError ("'" +:+ type_name v +:+ "' object is not subscriptable")
  end.

(** The validated expense: the dict with the keys [date], [description],
    [category], [amount] and [account], in this order. *)
Record expense := Expense {
  date : string;
  description : string;
  category : string;
  amount : string;
  account : string
}.

Definition expense_dict (e : expense) : pyval :=
  PDict [ ("date", PStr (date e));
          ("description", PStr (description e));
          ("category", PStr (category e));
          ("amount", PStr (amount e));
          ("account", PStr (account e)) ].

Section Parser.

(** [json.loads] on a string: the decoded value, or the exception it
    raises ([json.JSONDecodeError] on text that is not JSON). *)
Variable json_loads : string -> result pyval.

(** [json.loads(event['body']) if isinstance(event.get('body'), str)
     else event.get('body', event)] *)
Definition extract_body (event : pyval) : result pyval :=
  b <- py_get event "body" PNone;;
  match b with
  | PStr _ =>
      raw <- py_getitem event "body";;
      match raw with
      | PStr text => json_loads text
      | _ =>
          raise TypeError
            ("the JSON object must be str, bytes or bytearray, not "
               +:+ type_name raw)
      end
  | _ => py_get event "body" event
  end.

Definition parse_payload (event : pyval) : result expense :=
  try_except
    (body <- extract_body event;;
     v_date <- py_get body "date" PNone;;
     r_date <- validate_field v_date "date";;
     date <- validate_date r_date;;
     v_description <- py_get body "description" PNone;;
     description <- validate_field v_description "description";;
     v_category <- py_get body "category" PNone;;
     r_category <- validate_field v_category "category";;
     category <- validate_category r_category;;
     v_amount <- py_get body "amount" PNone;;
     r_amount <- validate_field v_amount "amount";;
     amount <- validate_amount r_amount;;
     v_account <- py_get body "account" PNone;;
     account <- validate_field v_account "account";;
     Ok (Expense date description category amount account))
    [ ([JSONDecodeError; KeyError], fun e =>
         raise ExpenseError ("Payload inválido: " +:+ exn_str e)) ].

End Parser.

(** ** Sheet writer *)

(** [float(s)] for a string.  The double itself is not computed: the
    result stands for the double that the accepted text denotes, with
    what the writer observes of it, whether it is finite. *)
Module Float.

Record t := Of { text : string; finite : bool }.

(** An underscore is accepted only between two digits; the accepted
    text is returned without its underscores. *)
Fixpoint strip_underscores (prev : ascii) (s : list ascii) : option (list ascii) :=
  match s with
  | [] => if Ascii.eqb prev "_"%char then None else Some []
  | c :: r =>
      if Ascii.eqb c "_"%char then
        if Strptime.is_digit prev then strip_underscores c r else None
      else if Ascii.eqb prev "_"%char && negb (Strptime.is_digit c) then None
      else option_map (cons c) (strip_underscores c r)
  end.

Definition is_special (body : list ascii) : bool :=
  let l := string_of_list_ascii (map Decimal.lower body) in
  String.eqb l "inf" || String.eqb l "infinity" || String.eqb l "nan".

(** A decimal number rounds to an infinite double from
    [2^1024 - 2^970] on, halfway between the largest double and
    [2^1024]. *)
Definition overflow_threshold : Z := (2 ^ 1024 - 2 ^ 970)%Z.

Definition below_overflow (c e : Z) : bool :=
  if (0 <=? e)%Z then (c * 10 ^ e <? overflow_threshold)%Z
  else (c <? overflow_threshold * 10 ^ (- e))%Z.

Definition of_string (s : string) : result t :=
  let stripped := Str.strip s in
  let error :=
    raise ValueError ("could not convert string to float: " +:+ repr_str s) in
  match strip_underscores Ascii.zero (list_ascii_of_string stripped) with
  | None => error
  | Some u =>
      let (_, body) := Decimal.take_sign u in
      match Decimal.parse_number body with
      | Some (c, e) => Ok (Of stripped (below_overflow c e))
      | None => if is_special body then Ok (Of stripped false) else error
      end
  end.

End Float.

(** A value sent to a cell. *)
Inductive cell :=
| CellStr (s : string)
| CellFloat (f : Float.t).

(** The spreadsheet service, as the handler sees it: the populated cells
    of the worksheet, keyed by row and column (both from 1), and the
    outcome of the calls to come.  Each call to the service consumes the
    head of [faults]: [None] (and the empty list) lets the call succeed,
    [Some e] makes it raise [e]. *)
Record backend := Backend {
  cells : gmap (nat * nat) cell;
  faults : list (option exn)
}.

(** A computation that calls the service. *)
Definition io (A : Type) : Type := backend -> result A * backend.

Definition io_ret {A} (a : A) : io A := fun b => (Ok a, b).

Definition io_bind {A B} (m : io A) (k : A -> io B) : io B := fun b =>
  match m b with
  | (Ok a, b') => k a b'
  | (Raise e, b') => (Raise e, b')
  end.

Definition lift {A} (r : result A) : io A := fun b => (r, b).

Declare Scope io_scope.
Delimit Scope io_scope with io.
Notation "x <- m ;; k" := (io_bind m (fun x => k))
  (at level 100, m at next level, right associativity) : io_scope.

Definition io_try_except {A} (m : io A)
    (clauses : list (list exc_class * (exn -> io A))) : io A := fun b =>
  match m b with
  | (Raise e, b') =>
      match find_clause clauses e with
      | Some h => h e b'
      | None => (Raise e, b')
      end
  | (Ok a, b') => (Ok a, b')
  end.

(** [for x in l: body x] *)
Fixpoint for_each {A} (l : list A) (body : A -> io unit) : io unit :=
  match l with
  | [] => io_ret tt
  | x :: rest => io_bind (body x) (fun _ => for_each rest body)
  end.

Module Gspread.

(** One call to the service. *)
Definition call : io unit := fun b =>
  match faults b with
  | [] => (Ok tt, b)
  | None :: rest => (Ok tt, Backend (cells b) rest)
  | Some e :: rest => (Raise e, Backend (cells b) rest)
  end.

(** [Credentials.from_service_account_file], [gspread.authorize],
    [client.open_by_key] and [spreadsheet.worksheet]: the handles they
    return carry nothing that the handler inspects. *)
Definition from_service_account_file : io unit := call.
Definition authorize : io unit := call.
Definition open_by_key : io unit := call.
Definition worksheet : io unit := call.

Definition last_row (m : gmap (nat * nat) cell) : nat :=
  map_fold (fun k _ acc => Nat.max (fst k) acc) 0 m.

Definition last_col (m : gmap (nat * nat) cell) : nat :=
  map_fold (fun k _ acc => Nat.max (snd k) acc) 0 m.

(** The values of a worksheet: the rows up to the last populated one,
    each up to the last populated column; for a worksheet without a
    value, one row without a value, [[[]]]. *)
Definition all_values (m : gmap (nat * nat) cell) : list (list (option cell)) :=
  match last_row m with
  | O => [[]]
  | S _ =>
      map (fun r => map (fun c => m !! (r, c)) (seq 1 (last_col m)))
        (seq 1 (last_row m))
  end.

(** [sheet.get_all_values()] *)
Definition get_all_values : io (list (list (option cell))) := fun b =>
  io_bind call (fun _ => io_ret (all_values (cells b))) b.

Definition is_upper (c : ascii) : bool :=
  let n := nat_of_ascii c in Nat.leb 65 n && Nat.leb n 90.

(** The column that a run of letters names: [A] is 1, [Z] is 26, [AA]
    is 27. *)
Fixpoint column_letters (acc : nat) (s : string) : nat * string :=
  match s with
  | String c rest =>
      if is_upper c then column_letters (26 * acc + (nat_of_ascii c - 64)) rest
      else (acc, s)
  | EmptyString => (acc, s)
  end.

(** The row and the column of a cell label such as [G12]. *)
Definition a1_to_rowcol (label : string) : option (nat * nat) :=
  let (col, digits) := column_letters 0 label in
  match NilZero.uint_of_string digits with
  | Some d =>
      let row := Nat.of_uint d in
      if Nat.eqb col 0 || Nat.eqb row 0 then None else Some (row, col)
  | None => None
  end.

(** The request body is JSON without [NaN] and [Infinity]: a float
    that is not finite is refused before anything is sent. *)
Definition json_compliant (value : cell) : bool :=
  match value with
  | CellStr _ => true
  | CellFloat f => Float.finite f
  end.

(** [sheet.update(label, [[value]], value_input_option='USER_ENTERED')] *)
Definition update (label : string) (value : cell) : io unit :=
  if json_compliant value then
    io_bind call (fun _ b =>
      match a1_to_rowcol label with
      | Some rc => (Ok tt, Backend (<[rc := value]> (cells b)) (faults b))
      | None => (raise APIError ("Unable to parse range: " +:+ label), b)
      end)
  else lift (raise Exception "Out of range float values are not JSON compliant").

End Gspread.

(** The columns that receive a value, in the order of the dict. *)
Definition column_mapping (expense : expense) (amount_float : Float.t)
    : list (string * cell) :=
  [ ("A", CellStr (date expense));
    ("C", CellStr (description expense));
    ("D", CellStr (category expense));
    ("G", CellFloat amount_float);
    ("H", CellStr (account expense)) ].

Section Writer.

(** [os.environ["WORKSHEET_NAME"]] *)
Variable WORKSHEET_NAME : string.

Local Open Scope io_scope.

(** The body of the [try] statement of [append_to_sheet]. *)
Definition write_row (expense : expense) : io string :=
  creds <- Gspread.from_service_account_file;;
  client <- Gspread.authorize;;
  spreadsheet <- Gspread.open_by_key;;
  sheet <- Gspread.worksheet;;
  values <- Gspread.get_all_values;;
  let next_row := length values + 1 in
  amount_float <- lift (Float.of_string (amount expense));;
  _ <- for_each (column_mapping expense amount_float) (fun cv =>
         let cell := fst cv +:+ Str.of_nat next_row in
         Gspread.update cell (snd cv));;
  let range_updated :=
    WORKSHEET_NAME +:+ "!A" +:+ Str.of_nat next_row
      +:+ ":H" +:+ Str.of_nat next_row in
  io_ret range_updated.

Definition append_to_sheet (expense : expense) : io string :=
  io_try_except (write_row expense)
    [ ([APIError], fun e =>
         lift (raise ExpenseError
                 ("Error al conectar con Google Sheets: " +:+ exn_str e)));
      ([Exception], fun e =>
         lift (raise ExpenseError
                 ("Error al insertar datos: " +:+ exn_str e))) ].

End Writer.

(** ** Response builder *)

(** [json.dumps(v, ensure_ascii=False)]: a string is written between
    double quotes; the double quote, the backslash and the control
    characters below U+0020 are escaped, every other character is
    kept. *)
Module Json.

Definition escape_char (c : ascii) : string :=
  let n := nat_of_ascii c in
  if Nat.eqb n 34 then Str.backslash +:+ Str.dquote
  else if Nat.eqb n 92 then Str.backslash +:+ Str.backslash
  else if Nat.eqb n 8 then Str.backslash +:+ "b"
  else if Nat.eqb n 12 then Str.backslash +:+ "f"
  else if Nat.eqb n 10 then Str.backslash +:+ "n"
  else if Nat.eqb n 13 then Str.backslash +:+ "r"
  else if Nat.eqb n 9 then Str.backslash +:+ "t"
  else if Nat.ltb n 32 then Str.backslash +:+ "u00" +:+ Str.hex2 n
  else String c EmptyString.

Definition encode_string (s : string) : string :=
  Str.dquote +:+ Str.flat_map_chars escape_char s +:+ Str.dquote.

Definition encode_float (f : pyfloat) : string :=
  if String.eqb (float_str f) "nan" then "NaN"
  else if String.eqb (float_str f) "inf" then "Infinity"
  else if String.eqb (float_str f) "-inf" then "-Infinity"
  else float_str f.

Fixpoint dumps (v : pyval) : string :=
  match v with
  | PNone => "null"
  | PBool true => "true"
  | PBool false => "false"
  | PInt z => Str.of_Z z
  | PFloat f => encode_float f
  | PStr s => encode_string s
  | PList l => "[" +:+ Str.join ", " (map dumps l) +:+ "]"
  | PDict d =>
      "{" +:+ Str.join ", "
        (map (fun kv => encode_string (fst kv) +:+ ": " +:+ dumps (snd kv)) d)
        +:+ "}"
  end.

End Json.

Record response := Response {
  statusCode : Z;
  headers : list (string * string);
  body : string
}.

Definition create_response (status_code : Z) (body : pyval) : response :=
  {| statusCode := status_code;
     headers := [ ("Content-Type", "application/json");
                  ("Access-Control-Allow-Origin", "*") ];
     body := Json.dumps body |}.

(** ** Handler *)

Section Handler.

Variable json_loads : string -> result pyval.

(** [json.dumps] with its default encoder, as the first statement of the
    handler calls it on the event: the text, or the exception it raises
    ([RecursionError] on a value nested deeper than the interpreter
    allows). *)
Variable json_dumps : pyval -> result string.

Variable WORKSHEET_NAME : string.

Local Open Scope io_scope.

(** The body of the [try] statement of [lambda_handler]. *)
Definition handle (event : pyval) : io response :=
  expense <- lift (parse_payload json_loads event);;
  updated_range <- append_to_sheet WORKSHEET_NAME expense;;
  let message :=
    "✅ Registro agregado exitosamente:" +:+ Str.newline
      +:+ "📂 Categoría: " +:+ category expense +:+ Str.newline
      +:+ "📅 Fecha: " +:+ date expense +:+ Str.newline
      +:+ "📝 Descripción: " +:+ description expense +:+ Str.newline
      +:+ "💰 Monto: $" +:+ amount expense +:+ Str.newline
      +:+ "🏦 Cuenta: " +:+ account expense +:+ Str.newline
      +:+ "📊 Celda: " +:+ updated_range in
  io_ret
    (create_response 200
       (PDict [ ("message", PStr message);
                ("data", PDict [ ("expense", expense_dict expense);
                                 ("updated_range", PStr updated_range) ]) ])).

(** The [try] statement of [lambda_handler], with its two [except]
    clauses. *)
Definition respond (event : pyval) : io response :=
  io_try_except (handle event)
    [ ([ExpenseError], fun e =>
         io_ret (create_response 400 (PDict [ ("error", PStr (exn_str e)) ])));
      ([Exception], fun e =>
         io_ret
           (create_response 500
              (PDict [ ("error", PStr "Error interno del servidor") ]))) ].

(** The handler: the text of the event is computed for the log, outside
    the [try] statement, and then the [try] statement runs. *)
Definition lambda_handler (event : pyval) : io response :=
  logged <- lift (json_dumps event);;
  respond event.

End Handler.

(** ** The words of the specification

    Definitions that follow the text of the specification, to be compared
    with the definitions above, which follow the code. *)

Module Spec.

Definition is_digit := Strptime.is_digit.

(** A zero-padded two-digit day, a zero-padded two-digit month and a
    four-digit year, separated by hyphens. *)
Definition is_dd_mm_yyyy (s : string) : bool :=
  match list_ascii_of_string s with
  | [d1; d2; h1; m1; m2; h2; y1; y2; y3; y4] =>
      forallb is_digit [d1; d2; m1; m2; y1; y2; y3; y4]
      && Ascii.eqb h1 "-"%char && Ascii.eqb h2 "-"%char
  | _ => false
  end.

(** Digits, a point, and exactly two digits. *)
Definition two_decimal_places (s : string) : bool :=
  match rev (list_ascii_of_string s) with
  | f2 :: f1 :: p :: i1 :: intpart =>
      is_digit f2 && is_digit f1 && Ascii.eqb p "."%char
      && forallb is_digit (i1 :: intpart)
  | _ => false
  end.

(** A value that is missing, empty, or blank after trimming. *)
Definition missing_empty_or_blank (v : pyval) : bool :=
  match v with
  | PNone => true
  | PStr s => Str.is_empty (Str.strip s)
  | PList [] => true
  | PDict [] => true
  | _ => false
  end.

(** [validate_required] as the specification words it. *)
Definition validate_required (value : pyval) (field_name : string) : result string :=
  if missing_empty_or_blank value then
    raise ExpenseError ("El campo '" +:+ field_name +:+ "' es requerido")
  else Ok (Str.strip (py_str value)).

(** The value of a field of a body, [None] when it is absent. *)
Definition field (b : list (string * pyval)) (key : string) : pyval :=
  match dict_get b key with Some v => v | None => PNone end.

(** The checks of each field: [validate_required] first, then the
    validator of the field where there is one. *)
Definition check_date (v : pyval) : result string :=
  bind (validate_field v "date") validate_date.
Definition check_description (v : pyval) : result string :=
  validate_field v "description".
Definition check_category (v : pyval) : result string :=
  bind (validate_field v "category") validate_category.
Definition check_amount (v : pyval) : result string :=
  bind (validate_field v "amount") validate_amount.
Definition check_account (v : pyval) : result string :=
  validate_field v "account".

(** The five fields in the order of validation. *)
Definition field_checks : list (string * (pyval -> result string)) :=
  [ ("date", check_date);
    ("description", check_description);
    ("category", check_category);
    ("amount", check_amount);
    ("account", check_account) ].

Definition required_fields : list string := map fst field_checks.

(** The five checks in a row on the fields of a body, stopping at the
    first one that fails. *)
Definition validate_fields (b : list (string * pyval)) : result expense :=
  bind (check_date (field b "date")) (fun date =>
  bind (check_description (field b "description")) (fun description =>
  bind (check_category (field b "category")) (fun category =>
  bind (check_amount (field b "amount")) (fun amount =>
  bind (check_account (field b "account")) (fun account =>
  Ok (Expense date description category amount account)))))).

(** The body of the response for an unexpected failure, as the
    specification spells it. *)
Definition internal_server_error : pyval :=
  PDict [ ("error", PStr "internal server error") ].

(** A structured body: a mapping. *)
Definition is_mapping (v : pyval) : bool :=
  match v with PDict _ => true | _ => false end.

Definition is_string (v : pyval) : bool :=
  match v with PStr _ => true | _ => false end.

(** The columns A, C, D, G and H by number. *)
Definition written_columns : list nat := [1; 3; 4; 7; 8].

(** The row after the rows of the worksheet: one more than the number
    of rows that the service returns. *)
Definition next_row (m : gmap (nat * nat) cell) : nat :=
  length (Gspread.all_values m) + 1.

Definition append_row (b : backend) : nat := next_row (cells b).

(** A populated row: a row with a cell that holds a value. *)
Definition populated (m : gmap (nat * nat) cell) (r : nat) : Prop :=
  exists c v, m !! (r, c) = Some v.


(** [n] is the number of the last populated row of a worksheet that has
    one. *)
Definition last_populated (m : gmap (nat * nat) cell) (n : nat) : Prop :=
  1 <= n /\ populated m n /\ forall r, populated m r -> r <= n.

(** The populated rows are the first [n] rows, without a blank row
    between them. *)
Definition first_rows (m : gmap (nat * nat) cell) (n : nat) : Prop :=
  forall r, populated m r <-> 1 <= r <= n.

(** The number of the column that a letter names. *)
Definition column_number (col : string) : nat :=
  fst (Gspread.column_letters 0 col).

(** The letters of the columns that the writer fills. *)
Definition written_letters : list string := ["A"; "C"; "D"; "G"; "H"].

(** The cells after the values of [mapping] are put in [row], one after
    the other. *)
Fixpoint write_cells (row : nat) (mapping : list (string * cell))
    (m : gmap (nat * nat) cell) : gmap (nat * nat) cell :=
  match mapping with
  | [] => m
  | cv :: rest => write_cells row rest (<[(row, column_number (fst cv)) := snd cv]> m)
  end.

(** A service without a failure to come. *)
Definition healthy (b : backend) : Prop := Forall (fun o => o = None) (faults b).

(** The range of a row, as the writer reports it. *)
Definition range_of_row (worksheet_name : string) (row : nat) : string :=
  worksheet_name +:+ "!A" +:+ Str.of_nat row +:+ ":H" +:+ Str.of_nat row.

(** The update of one cell of a row, as the loop of the writer issues
    it. *)
Definition update_cell (row : nat) (cv : string * cell) : io unit :=
  Gspread.update (fst cv +:+ Str.of_nat row) (snd cv).

(** A mapping whose columns are among the five letters. *)
Definition letters_only (mapping : list (string * cell)) : Prop :=
  Forall (fun cv => In (fst cv) written_letters) mapping.

(** A mapping whose values the service accepts. *)
Definition all_compliant (mapping : list (string * cell)) : Prop :=
  Forall (fun cv => Gspread.json_compliant (snd cv) = true) mapping.

(** The text of an amount with two decimal places: digits, a point and
    two digits. *)
Definition amount_shape (r : string) : Prop :=
  exists intpart d1 d2,
    intpart <> [] /\ forallb Strptime.is_digit intpart = true /\
    Strptime.is_digit d1 = true /\ Strptime.is_digit d2 = true /\
    list_ascii_of_string r = (intpart ++ "."%char :: [d1; d2])%list.

(** The text of [two_digits] is made of two digits. *)
Definition two_digits_check (k : nat) : bool :=
  match list_ascii_of_string (Decimal.two_digits (Z.of_nat k)) with
  | [d1; d2] => Strptime.is_digit d1 && Strptime.is_digit d2
  | _ => false
  end.

(** What the writer does once it knows the row: the conversion of the
    amount, the five updates and the range. *)
Definition fill_row (worksheet_name : string) (expense : expense) (row : nat)
    : io string :=
  io_bind (lift (Float.of_string (amount expense))) (fun amount_float =>
  io_bind (for_each (column_mapping expense amount_float) (update_cell row)) (fun _ =>
  io_ret (range_of_row worksheet_name row))).

End Spec.

(** ** Sample inputs *)

Module Sample.

(** A text that opens a hundred thousand arrays, one inside the other:
    more than the interpreter lets [json.loads] descend. *)
Definition deep_text : string := Str.repeated "["%char (100 * 1000).

(** A decoder that agrees with [json.loads] on the texts used below:
    three texts of JSON, a text that opens more than fifty thousand
    arrays, on which the decoder exceeds the depth of recursion, and the
    text [oops], which begins with no JSON value.  Every other text is
    answered as the last one. *)
Definition json_loads (text : string) : result pyval :=
  if String.eqb text "[1, 2]" then Ok (PList [PInt 1; PInt 2])
  else if String.eqb text "null" then Ok PNone
  else if String.eqb text "{}" then Ok (PDict [])
  else if Nat.ltb (50 * 1000) (Str.leading "["%char text) then
    raise RecursionError
      "maximum recursion depth exceeded while decoding a JSON array from a unicode string"
  else raise JSONDecodeError "Expecting value: line 1 column 1 (char 0)".

(** The number of lists and dicts around the innermost value. *)
Fixpoint depth (v : pyval) : nat :=
  match v with
  | PList l => S (fold_right (fun x acc => Nat.max (depth x) acc) 0 l)
  | PDict d => S (fold_right (fun kv acc => Nat.max (depth (snd kv)) acc) 0 d)
  | _ => 0
  end.

(** [v] inside [n] lists. *)
Fixpoint nest (n : nat) (v : pyval) : pyval :=
  match n with
  | O => v
  | S k => PList [nest k v]
  end.

(** An encoder that agrees with [json.dumps] on the events used below:
    values of ASCII text nested less than a hundred deep, which it
    encodes, and a value nested a hundred thousand deep, on which the
    encoder exceeds the depth of recursion. *)
Definition json_dumps (v : pyval) : result string :=
  if Nat.leb (depth v) 100 then Ok (Json.dumps v)
  else raise RecursionError
         "maximum recursion depth exceeded while encoding a JSON object".

Definition coffee_body : list (string * pyval) :=
  [ ("date", PStr "24-10-2025");
    ("description", PStr "Coffee");
    ("category", PStr "Almuerzo");
    ("amount", PStr "3.5");
    ("account", PStr "Cash") ].

Definition coffee_event : pyval := PDict [ ("body", PDict coffee_body) ].

Definition coffee : expense :=
  Expense "24-10-2025" "Coffee" "Almuerzo" "3.50" "Cash".

(** The request of the sample, with a value nested a hundred thousand
    deep beside its body. *)
Definition deep_event : pyval :=
  PDict [ ("body", PDict coffee_body); ("trace", nest (100 * 1000) PNone) ].

(** The request of the sample with an infinite amount. *)
Definition infinite_event : pyval :=
  PDict [ ("date", PStr "24-10-2025");
          ("description", PStr "Coffee");
          ("category", PStr "Almuerzo");
          ("amount", PStr "Infinity");
          ("account", PStr "Cash") ].

Definition infinite : expense :=
  Expense "24-10-2025" "Coffee" "Almuerzo" "Infinity" "Cash".

Definition empty_sheet : backend := Backend ∅ [].

(** A worksheet with a title in its first row. *)
Definition header_cells : gmap (nat * nat) cell := {[ (1, 1) := CellStr "Fecha" ]}.

Definition header_sheet : backend := Backend header_cells [].


(** A service whose calls succeed seven times (four to connect, one to
    read, two updates) and then fail, on the worksheet with a title. *)
Definition failing_third_update : backend :=
  Backend header_cells (repeat None 7 ++ [Some (Exn APIError "quota exceeded")]).

End Sample.

(** ** Texts and numbers

    Notions used to state what the validators return. *)

Module Text.

(** The number that a run of digits denotes after [acc]. *)
Definition fold_digits (ds : list ascii) (acc : Z) : Z :=
  fold_left (fun a c => 10 * a + Decimal.digit c)%Z ds acc.

(** The text of [q] hundredths: the units, a point and two digits. *)
Definition cents (q : Z) : string :=
  Str.of_Z (q / 100) +:+ "." +:+ Decimal.two_digits (q mod 100).

(** The text of [two_digits] denotes its argument. *)
Definition two_digits_value_check (k : nat) : bool :=
  Z.eqb (Decimal.int_of_digits
           (list_ascii_of_string (Decimal.two_digits (Z.of_nat k))))
        (Z.of_nat k).

(** A text without a character below U+0020 (the control characters of
    ASCII but DEL, among them the line feed, the carriage return and the
    tab): every byte of its UTF-8 encoding is at least 32, the bytes of a
    character beyond ASCII being at least 128. *)
Definition no_c0_control (s : string) : bool :=
  forallb (fun c => Nat.leb 32 (nat_of_ascii c)) (list_ascii_of_string s).

(** The escape of a character has no character below U+0020. *)
Definition escape_check (n : nat) : bool :=
  no_c0_control (Json.escape_char (ascii_of_nat n)).

(** The year that four digits denote. *)
Definition year_of (y1 y2 y3 y4 : ascii) : nat :=
  1000 * Strptime.digit y1 + 100 * Strptime.digit y2
    + 10 * Strptime.digit y3 + Strptime.digit y4.

End Text.

(** * Properties *)

(** ** Strings and exceptions *)

Lemma append_cons (x : ascii) (a b : string) :
  String x a +:+ b = String x (a +:+ b).
Proof. reflexivity. Qed.

Lemma append_nil (b : string) : EmptyString +:+ b = b.
Proof. reflexivity. Qed.

Lemma append_assoc (a b c : string) : (a +:+ b) +:+ c = a +:+ (b +:+ c).
Proof.
  induction a as [|x a IH]; [reflexivity |].
  rewrite !append_cons. f_equal. exact IH.
Qed.

Lemma append_empty_r (a : string) : a +:+ EmptyString = a.
Proof.
  induction a as [|x a IH]; [reflexivity |].
  rewrite append_cons. f_equal. exact IH.
Qed.

Lemma join_infix (sep c : string) (l : list string) :
  In c l -> exists pre post, Str.join sep l = pre +:+ c +:+ post.
Proof.
  unfold Str.join. induction l as [|x l IH]; simpl; [tauto |].
  intros [-> | Hin].
  - exists EmptyString. destruct l as [|y l].
    + exists EmptyString. now rewrite append_empty_r.
    + eexists. reflexivity.
  - destruct (IH Hin) as (pre & post & E).
    destruct l as [|y l]; [destruct Hin |].
    exists (x +:+ sep +:+ pre), post.
    rewrite E. now rewrite !append_assoc.
Qed.

Lemma str_in_In (s : string) (l : list string) : str_in s l = true <-> In s l.
Proof.
  unfold str_in. rewrite existsb_exists. split.
  - intros (x & Hin & E). apply String.eqb_eq in E. now subst.
  - intros Hin. exists s. split; [assumption | apply String.eqb_refl].
Qed.

(** ** Validators *)

(** C8: [validate_category] accepts exactly the 25 strings of
    [VALID_CATEGORIES], compared character by character, and returns an
    accepted string unchanged; every other string is refused with an
    [ExpenseError] whose message contains each of the 25 options. *)
Theorem validate_category_membership (s : string) :
  length VALID_CATEGORIES = 25 /\
  (In s VALID_CATEGORIES -> validate_category s = Ok s) /\
  (~ In s VALID_CATEGORIES ->
   exists msg, validate_category s = raise ExpenseError msg /\
     forall c, In c VALID_CATEGORIES -> exists pre post, msg = pre +:+ c +:+ post).
Proof.
  split; [reflexivity |]. unfold validate_category. split.
  - intros Hin. apply str_in_In in Hin. now rewrite Hin.
  - intros Hnot. destruct (str_in s VALID_CATEGORIES) eqn:E.
    + apply str_in_In in E. contradiction.
    + cbn [negb]. eexists. split; [reflexivity |].
      intros c Hc. destruct (join_infix ", " c VALID_CATEGORIES Hc) as (pre & post & Ej).
      exists ("Categoría inválida. Opciones: " +:+ pre), post.
      rewrite Ej. now rewrite append_assoc.
Qed.

Lemma validate_category_membership_witness :
  validate_category "Recreacional" = Ok "Recreacional" /\
  exists msg, validate_category "recreacional" = raise ExpenseError msg /\
    exists pre post, msg = pre +:+ "Gasto Común" +:+ post.
Proof.
  split.
  - apply (validate_category_membership "Recreacional"). vm_compute. tauto.
  - destruct (validate_category_membership "recreacional") as (_ & _ & H).
    destruct H as (msg & E & Hall).
    + vm_compute. intuition discriminate.
    + exists msg. split; [exact E |]. apply Hall. vm_compute. tauto.
Defined.

(** C9, as the specification states it, fails on the number zero: zero is
    neither missing, nor empty, nor blank, and its string is ["0"], yet
    [validate_field] refuses it as a missing field. *)
Lemma validate_field_refuses_zero :
  Spec.missing_empty_or_blank (PInt 0) = false /\
  Spec.validate_required (PInt 0) "amount" = Ok "0" /\
  validate_field (PInt 0) "amount"
    = raise ExpenseError "El campo 'amount' es requerido".
Proof. repeat split. Qed.

Lemma missing_empty_or_blank_refused (value : pyval) :
  Spec.missing_empty_or_blank value = true ->
  truthy value = false \/ Str.strip (py_str value) = EmptyString.
Proof.
  destruct value as [| b | z | f | s | l | d]; simpl; try discriminate.
  - now left.
  - intros H. right. destruct (Str.strip s); [reflexivity | discriminate].
  - destruct l; [now left | discriminate].
  - destruct d; [now left | discriminate].
Qed.

(** C9, amended: [validate_field] refuses, with an [ExpenseError] that
    names the field, every value that Python takes for false ([None],
    [False], a zero, an empty string, list or dict) and every value whose
    string is blank after trimming, which covers the values that are
    missing, empty or blank; it returns the trimmed string of every other
    value. *)
Theorem validate_field_falsy_or_blank (value : pyval) (field_name : string) :
  (Spec.missing_empty_or_blank value = true ->
   validate_field value field_name
     = raise ExpenseError ("El campo '" +:+ field_name +:+ "' es requerido")) /\
  (truthy value = false \/ Str.strip (py_str value) = EmptyString ->
   validate_field value field_name
     = raise ExpenseError ("El campo '" +:+ field_name +:+ "' es requerido")) /\
  (truthy value = true -> Str.strip (py_str value) <> EmptyString ->
   validate_field value field_name = Ok (Str.strip (py_str value))).
Proof.
  assert (Hfail : truthy value = false \/ Str.strip (py_str value) = EmptyString ->
    validate_field value field_name
      = raise ExpenseError ("El campo '" +:+ field_name +:+ "' es requerido")).
  { unfold validate_field. intros [Hf | Hb].
    - now rewrite Hf.
    - rewrite Hb. simpl. now rewrite orb_true_r. }
  split; [| split].
  - intros H. apply Hfail. now apply missing_empty_or_blank_refused.
  - exact Hfail.
  - intros Ht Hne. unfold validate_field. rewrite Ht. simpl.
    destruct (Str.strip (py_str value)); [contradiction | reflexivity].
Qed.

Lemma validate_field_falsy_or_blank_witness :
  validate_field PNone "date" = raise ExpenseError "El campo 'date' es requerido" /\
  validate_field (PBool false) "account"
    = raise ExpenseError "El campo 'account' es requerido" /\
  validate_field (PStr "  Cash ") "account" = Ok "Cash".
Proof.
  split; [| split].
  - apply (proj1 (validate_field_falsy_or_blank PNone "date")). reflexivity.
  - apply (proj1 (proj2 (validate_field_falsy_or_blank (PBool false) "account"))).
    left. reflexivity.
  - apply (proj2 (proj2 (validate_field_falsy_or_blank (PStr "  Cash ") "account"))).
    + reflexivity.
    + vm_compute. discriminate.
Defined.

(** [validate_date] returns its argument or raises [ExpenseError]. *)
Lemma validate_date_unchanged (date_str : string) :
  validate_date date_str = Ok date_str \/
  validate_date date_str
    = raise ExpenseError
        ("Fecha inválida: " +:+ date_str +:+ ". Use formato DD-MM-YYYY").
Proof.
  unfold validate_date, Strptime.strptime.
  destruct (Strptime.format_re _) as [| [[[d m] y] rest] tl]; [now right |].
  destruct rest; [| now right].
  destruct (Nat.eqb y 0); [now right |].
  destruct (Nat.ltb _ d); [now right | now left].
Qed.

Example validate_date_samples :
  validate_date "24-10-2025" = Ok "24-10-2025" /\
  validate_date "29-02-2024" = Ok "29-02-2024" /\
  (exists msg, validate_date "2025-10-24" = raise ExpenseError msg) /\
  (exists msg, validate_date "32-13-2025" = raise ExpenseError msg) /\
  (exists msg, validate_date "29-02-2025" = raise ExpenseError msg) /\
  (exists msg, validate_date "24-10-25" = raise ExpenseError msg) /\
  (exists msg, validate_date "24/10/2025" = raise ExpenseError msg).
Proof. repeat split; eexists; reflexivity. Qed.

(** C3: the code departs from the claim on a day or a month written
    without its leading zero: ["1-1-2025"] is not of the form DD-MM-YYYY,
    and [validate_date] accepts it and returns it as it is. *)
Theorem validate_date_accepts_unpadded :
  Spec.is_dd_mm_yyyy "1-1-2025" = false /\
  validate_date "1-1-2025" = Ok "1-1-2025".
Proof. split; reflexivity. Qed.

Example validate_amount_samples :
  validate_amount "100" = Ok "100.00" /\
  validate_amount "99,9" = Ok "99.90" /\
  validate_amount "3.5" = Ok "3.50" /\
  validate_amount "0.125" = Ok "0.12" /\
  validate_amount "0.135" = Ok "0.14" /\
  validate_amount "0" = raise ExpenseError "El monto debe ser mayor a cero" /\
  validate_amount "-5" = raise ExpenseError "El monto debe ser mayor a cero" /\
  validate_amount "abc" = raise ExpenseError "Monto inválido: abc" /\
  validate_amount "NaN" = raise ExpenseError "Monto inválido: NaN" /\
  validate_amount "1,234.56" = raise ExpenseError "Monto inválido: 1,234.56".
Proof. repeat split. Qed.

(** C4: the code departs from the claim on the infinite decimal:
    ["Infinity"] reads as a decimal greater than zero, and
    [validate_amount] returns ["Infinity"], which has no decimal places. *)
Theorem validate_amount_accepts_infinity :
  Decimal.of_string "Infinity" = Ok (Decimal.Infinity false) /\
  Spec.two_decimal_places "Infinity" = false /\
  validate_amount "Infinity" = Ok "Infinity".
Proof. repeat split. Qed.

(** ** Payload parser *)

Lemma catches_expense_only (e : exn) :
  exn_class e = ExpenseError -> catches [JSONDecodeError; KeyError] e = false.
Proof. unfold catches. intros ->. reflexivity. Qed.

Lemma validate_field_raises (v : pyval) (name : string) (e : exn) :
  validate_field v name = Raise e -> exn_class e = ExpenseError.
Proof.
  unfold validate_field. destruct (_ || _); [| discriminate].
  intros H. now inversion H.
Qed.

Lemma validate_date_raises (s : string) (e : exn) :
  validate_date s = Raise e -> exn_class e = ExpenseError.
Proof.
  destruct (validate_date_unchanged s) as [-> | ->]; [discriminate |].
  intros H. now inversion H.
Qed.

Lemma validate_category_raises (s : string) (e : exn) :
  validate_category s = Raise e -> exn_class e = ExpenseError.
Proof.
  unfold validate_category. destruct (negb _); [| discriminate].
  intros H. now inversion H.
Qed.

Lemma validate_amount_raises (s : string) (e : exn) :
  validate_amount s = Raise e -> exn_class e = ExpenseError.
Proof.
  unfold validate_amount.
  destruct (Decimal.of_string _) as [d | e0] eqn:E; simpl.
  - destruct d as [neg c ex | neg | neg]; simpl.
    + destruct (_ || _); simpl; [| discriminate]. intros H. now inversion H.
    + destruct neg; simpl; [| discriminate]. intros H. now inversion H.
    + intros H. now inversion H.
  - unfold Decimal.of_string in E.
    destruct (Decimal.take_sign _) as [neg body].
    destruct (Decimal.parse_number body) as [[c ex] |]; [discriminate |].
    destruct (Decimal.parse_special neg body); [discriminate |].
    inversion E. simpl. intros H. now inversion H.
Qed.

Lemma field_check_raises (key : string) (check : pyval -> result string)
    (v : pyval) (e : exn) :
  In (key, check) Spec.field_checks -> check v = Raise e ->
  exn_class e = ExpenseError.
Proof.
  assert (Hb : forall name (f : string -> result string),
    (forall s e', f s = Raise e' -> exn_class e' = ExpenseError) ->
    bind (validate_field v name) f = Raise e -> exn_class e = ExpenseError).
  { intros name f Hf. destruct (validate_field v name) as [r | e0] eqn:E; simpl.
    - apply Hf.
    - intros H. inversion H. subst. eapply validate_field_raises; eassumption. }
  simpl. intros [H | [H | [H | [H | [H | []]]]]]; inversion H; subst; clear H.
  - apply Hb, validate_date_raises.
  - apply validate_field_raises.
  - apply Hb, validate_category_raises.
  - apply Hb, validate_amount_raises.
  - apply validate_field_raises.
Qed.

Lemma py_get_mapping (b : list (string * pyval)) (key : string) :
  py_get (PDict b) key PNone = Ok (Spec.field b key).
Proof. reflexivity. Qed.

Lemma find_clause_expense {H} (h : H) (e : exn) :
  exn_class e = ExpenseError ->
  find_clause [([JSONDecodeError; KeyError], h)] e = None.
Proof. intros E. cbn [find_clause]. now rewrite (catches_expense_only e E). Qed.

(** One step of the chain of validators: either the validator returns,
    or it raises an [ExpenseError], which the [except] clause of the
    parser lets through. *)
Ltac validator_step m raises_lemma r :=
  let E := fresh "E" in
  destruct m as [r | ?] eqn:E; cbn [bind try_except];
  [ | apply raises_lemma in E; rewrite (find_clause_expense _ _ E); reflexivity ].

(** On a body that is a mapping, the parser is the chain of the five
    checks. *)
Lemma parse_payload_on_mapping (json_loads : string -> result pyval)
    (event : pyval) (b : list (string * pyval)) :
  extract_body json_loads event = Ok (PDict b) ->
  parse_payload json_loads event = Spec.validate_fields b.
Proof.
  intros Hb. unfold parse_payload, Spec.validate_fields. rewrite Hb.
  unfold Spec.check_date, Spec.check_description, Spec.check_category,
    Spec.check_amount, Spec.check_account.
  cbn [bind]. rewrite py_get_mapping. cbn [bind].
  validator_step (validate_field (Spec.field b "date") "date") validate_field_raises r1.
  validator_step (validate_date r1) validate_date_raises v1.
  rewrite py_get_mapping. cbn [bind].
  validator_step (validate_field (Spec.field b "description") "description")
    validate_field_raises v2.
  rewrite py_get_mapping. cbn [bind].
  validator_step (validate_field (Spec.field b "category") "category")
    validate_field_raises r3.
  validator_step (validate_category r3) validate_category_raises v3.
  rewrite py_get_mapping. cbn [bind].
  validator_step (validate_field (Spec.field b "amount") "amount")
    validate_field_raises r4.
  validator_step (validate_amount r4) validate_amount_raises v4.
  rewrite py_get_mapping. cbn [bind].
  validator_step (validate_field (Spec.field b "account") "account")
    validate_field_raises v5.
  reflexivity.
Qed.

Lemma validate_fields_raises (b : list (string * pyval)) (e : exn) :
  Spec.validate_fields b = Raise e -> exn_class e = ExpenseError.
Proof.
  unfold Spec.validate_fields.
  destruct (Spec.check_date _) as [r1 | e1] eqn:E1; cbn [bind];
    [| intros H; inversion H; subst;
       apply (field_check_raises "date" Spec.check_date _ _) in E1;
       [assumption | simpl; tauto]].
  destruct (Spec.check_description _) as [r2 | e2] eqn:E2; cbn [bind];
    [| intros H; inversion H; subst;
       apply (field_check_raises "description" Spec.check_description _ _) in E2;
       [assumption | simpl; tauto]].
  destruct (Spec.check_category _) as [r3 | e3] eqn:E3; cbn [bind];
    [| intros H; inversion H; subst;
       apply (field_check_raises "category" Spec.check_category _ _) in E3;
       [assumption | simpl; tauto]].
  destruct (Spec.check_amount _) as [r4 | e4] eqn:E4; cbn [bind];
    [| intros H; inversion H; subst;
       apply (field_check_raises "amount" Spec.check_amount _ _) in E4;
       [assumption | simpl; tauto]].
  destruct (Spec.check_account _) as [r5 | e5] eqn:E5; cbn [bind];
    [| intros H; inversion H; subst;
       apply (field_check_raises "account" Spec.check_account _ _) in E5;
       [assumption | simpl; tauto]].
  discriminate.
Qed.

Lemma validate_fields_returns (b : list (string * pyval)) (x : expense) :
  Spec.validate_fields b = Ok x ->
  Spec.check_date (Spec.field b "date") = Ok (date x) /\
  Spec.check_description (Spec.field b "description") = Ok (description x) /\
  Spec.check_category (Spec.field b "category") = Ok (category x) /\
  Spec.check_amount (Spec.field b "amount") = Ok (amount x) /\
  Spec.check_account (Spec.field b "account") = Ok (account x).
Proof.
  unfold Spec.validate_fields.
  destruct (Spec.check_date _) as [r1 | e1]; cbn [bind]; [| discriminate].
  destruct (Spec.check_description _) as [r2 | e2]; cbn [bind]; [| discriminate].
  destruct (Spec.check_category _) as [r3 | e3]; cbn [bind]; [| discriminate].
  destruct (Spec.check_amount _) as [r4 | e4]; cbn [bind]; [| discriminate].
  destruct (Spec.check_account _) as [r5 | e5]; cbn [bind]; [| discriminate].
  intros H. inversion H. simpl. repeat split.
Qed.

Lemma field_check_none (key : string) (check : pyval -> result string) :
  In (key, check) Spec.field_checks -> exists e, check PNone = Raise e.
Proof.
  simpl. intros [H | [H | [H | [H | [H | []]]]]]; inversion H; subst;
    eexists; reflexivity.
Qed.

Lemma extract_body_text (json_loads : string -> result pyval)
    (d : list (string * pyval)) (text : string) :
  dict_get d "body" = Some (PStr text) ->
  extract_body json_loads (PDict d) = json_loads text.
Proof. intros H. unfold extract_body, py_get, py_getitem. now rewrite H. Qed.

Lemma extract_body_value (json_loads : string -> result pyval)
    (d : list (string * pyval)) (v : pyval) :
  dict_get d "body" = Some v -> Spec.is_string v = false ->
  extract_body json_loads (PDict d) = Ok v.
Proof.
  intros H Hv. unfold extract_body, py_get. rewrite H. cbn [bind].
  destruct v; try reflexivity. discriminate.
Qed.

Lemma extract_body_absent (json_loads : string -> result pyval)
    (d : list (string * pyval)) :
  dict_get d "body" = None ->
  extract_body json_loads (PDict d) = Ok (PDict d).
Proof. intros H. unfold extract_body, py_get. now rewrite H. Qed.

Lemma validate_fields_absent (b : list (string * pyval)) (key : string) :
  In key Spec.required_fields -> dict_get b key = None ->
  exists msg, Spec.validate_fields b = raise ExpenseError msg.
Proof.
  intros Hkey Hnone.
  destruct (Spec.validate_fields b) as [x | e] eqn:E.
  - exfalso. apply validate_fields_returns in E.
    destruct E as (E1 & E2 & E3 & E4 & E5).
    assert (Hf : Spec.field b key = PNone) by (unfold Spec.field; now rewrite Hnone).
    simpl in Hkey.
    destruct Hkey as [<- | [<- | [<- | [<- | [<- | []]]]]]; rewrite Hf in *;
      discriminate.
  - apply validate_fields_raises in E. destruct e as [c msg]. simpl in E. subst c.
    exists msg. reflexivity.
Qed.

(** What the parser does with an exception of the decoder: a
    [JSONDecodeError] and a [KeyError] become an [ExpenseError], every
    other exception leaves the parser as it is. *)
Lemma parse_payload_decoder_raises (json_loads : string -> result pyval)
    (event : pyval) (e : exn) :
  extract_body json_loads event = Raise e ->
  parse_payload json_loads event
  = if catches [JSONDecodeError; KeyError] e
    then raise ExpenseError ("Payload inválido: " +:+ exn_str e)
    else Raise e.
Proof.
  intros H. unfold parse_payload. rewrite H. cbn [bind try_except find_clause].
  destruct (catches [JSONDecodeError; KeyError] e); reflexivity.
Qed.

(** C5, as the specification states it, fails on a text that the decoder
    refuses otherwise than as invalid JSON: on a body that opens a
    hundred thousand arrays [json.loads] raises [RecursionError], the
    parser does not catch it, and what leaves the parser is that
    [RecursionError], not an [ExpenseError]. *)
Lemma parse_payload_recursion_error :
  exists msg,
    Sample.json_loads Sample.deep_text = raise RecursionError msg /\
    parse_payload Sample.json_loads (PDict [ ("body", PStr Sample.deep_text) ])
      = raise RecursionError msg /\
    forall msg',
      parse_payload Sample.json_loads (PDict [ ("body", PStr Sample.deep_text) ])
        <> raise ExpenseError msg'.
Proof.
  eexists. split; [vm_compute; reflexivity |].
  assert (E : parse_payload Sample.json_loads (PDict [ ("body", PStr Sample.deep_text) ])
              = raise RecursionError
                  "maximum recursion depth exceeded while decoding a JSON array from a unicode string")
    by (vm_compute; reflexivity).
  split; [exact E |]. intros msg'. rewrite E. discriminate.
Qed.

Lemma parse_payload_not_mapping (json_loads : string -> result pyval)
    (event body : pyval) :
  extract_body json_loads event = Ok body -> Spec.is_mapping body = false ->
  exists msg, parse_payload json_loads event = raise AttributeError msg.
Proof.
  intros Hb Hm. unfold parse_payload. rewrite Hb. cbn [bind].
  destruct body; try discriminate; eexists; reflexivity.
Qed.

(** C5, amended: an event that is not a mapping makes the parser raise
    [AttributeError]; on an event that is a mapping, a body that is a
    string is decoded with [json.loads], any other body is used as it is,
    and without a body the event itself is the body.  On the resolved
    body, when it is a mapping, the parser is the chain of the five
    checks, so that it returns the expense of valid fields and raises
    [ExpenseError] when one of the five fields is absent; when it is not
    a mapping, the parser raises [AttributeError].  When [json.loads]
    raises [JSONDecodeError], the parser raises [ExpenseError] with the
    message of the decoder; any other exception of [json.loads], but a
    [KeyError], leaves the parser as it is, without becoming an
    [ExpenseError]. *)
Theorem parse_payload_body_resolution (json_loads : string -> result pyval)
    (d : list (string * pyval)) :
  (forall event, Spec.is_mapping event = false ->
     exists msg, parse_payload json_loads event = raise AttributeError msg) /\
  (forall text, dict_get d "body" = Some (PStr text) ->
     extract_body json_loads (PDict d) = json_loads text /\
     (forall b, json_loads text = Ok (PDict b) ->
        parse_payload json_loads (PDict d) = Spec.validate_fields b) /\
     (forall v, json_loads text = Ok v -> Spec.is_mapping v = false ->
        exists msg, parse_payload json_loads (PDict d) = raise AttributeError msg) /\
     (forall e, json_loads text = Raise e ->
        exn_class e = JSONDecodeError \/ exn_class e = KeyError ->
        parse_payload json_loads (PDict d)
        = raise ExpenseError ("Payload inválido: " +:+ exn_str e)) /\
     (forall e, json_loads text = Raise e ->
        exn_class e <> JSONDecodeError -> exn_class e <> KeyError ->
        parse_payload json_loads (PDict d) = Raise e)) /\
  (forall v, dict_get d "body" = Some v -> Spec.is_string v = false ->
     extract_body json_loads (PDict d) = Ok v /\
     (forall b, v = PDict b ->
        parse_payload json_loads (PDict d) = Spec.validate_fields b) /\
     (Spec.is_mapping v = false ->
        exists msg, parse_payload json_loads (PDict d) = raise AttributeError msg)) /\
  (dict_get d "body" = None ->
     extract_body json_loads (PDict d) = Ok (PDict d) /\
     parse_payload json_loads (PDict d) = Spec.validate_fields d) /\
  (forall b x, extract_body json_loads (PDict d) = Ok (PDict b) ->
     Spec.validate_fields b = Ok x ->
     parse_payload json_loads (PDict d) = Ok x) /\
  (forall b key, extract_body json_loads (PDict d) = Ok (PDict b) ->
     In key Spec.required_fields -> dict_get b key = None ->
     exists msg, parse_payload json_loads (PDict d) = raise ExpenseError msg).
Proof.
  split; [| split; [| split; [| split; [| split]]]].
  - intros event Hm. destruct event; try discriminate; eexists; reflexivity.
  - intros text H. pose proof (extract_body_text json_loads d text H) as Hb.
    split; [exact Hb |]. split; [| split; [| split]].
    + intros b Hj. apply parse_payload_on_mapping. now rewrite Hb.
    + intros v Hj Hm. apply (parse_payload_not_mapping _ _ v); [| exact Hm].
      now rewrite Hb.
    + intros e Hj Hc. rewrite Hj in Hb.
      rewrite (parse_payload_decoder_raises _ _ _ Hb). unfold catches. simpl.
      destruct Hc as [-> | ->]; reflexivity.
    + intros e Hj Hc1 Hc2. rewrite Hj in Hb.
      rewrite (parse_payload_decoder_raises _ _ _ Hb). unfold catches. simpl.
      destruct (exn_class e); try reflexivity; contradiction.
  - intros v H Hv. pose proof (extract_body_value json_loads d v H Hv) as Hb.
    split; [exact Hb |]. split.
    + intros b ->. now apply parse_payload_on_mapping.
    + intros Hm. now apply (parse_payload_not_mapping _ _ v).
  - intros H. pose proof (extract_body_absent json_loads d H) as Hb.
    split; [exact Hb |]. now apply parse_payload_on_mapping.
  - intros b x Hb Hx. now rewrite (parse_payload_on_mapping _ _ _ Hb).
  - intros b key Hb Hkey Hnone. rewrite (parse_payload_on_mapping _ _ _ Hb).
    now apply (validate_fields_absent b key).
Qed.

Lemma parse_payload_body_resolution_witness :
  parse_payload Sample.json_loads (PDict [ ("body", PStr "{}") ])
    = raise ExpenseError "El campo 'date' es requerido" /\
  parse_payload Sample.json_loads (PDict [ ("body", PStr "oops") ])
    = raise ExpenseError "Payload inválido: Expecting value: line 1 column 1 (char 0)" /\
  (exists msg,
     parse_payload Sample.json_loads (PDict [ ("body", PStr Sample.deep_text) ])
       = raise RecursionError msg) /\
  parse_payload Sample.json_loads Sample.coffee_event = Ok Sample.coffee /\
  parse_payload Sample.json_loads (PDict Sample.coffee_body) = Ok Sample.coffee /\
  exists msg,
    parse_payload Sample.json_loads
      (PDict [ ("body", PDict [ ("date", PStr "24-10-2025") ]) ])
      = raise ExpenseError msg.
Proof.
  split; [| split; [| split; [| split; [| split]]]].
  - destruct (parse_payload_body_resolution Sample.json_loads [ ("body", PStr "{}") ])
      as (_ & Htext & _).
    destruct (Htext "{}" eq_refl) as (_ & Hmap & _).
    rewrite (Hmap [] eq_refl). reflexivity.
  - destruct (parse_payload_body_resolution Sample.json_loads
                [ ("body", PStr "oops") ]) as (_ & Htext & _).
    destruct (Htext "oops" eq_refl) as (_ & _ & _ & Hjson & _).
    apply (Hjson (Exn JSONDecodeError "Expecting value: line 1 column 1 (char 0)"));
      [reflexivity | left; reflexivity].
  - destruct (parse_payload_body_resolution Sample.json_loads
                [ ("body", PStr Sample.deep_text) ]) as (_ & Htext & _).
    destruct (Htext Sample.deep_text eq_refl) as (_ & _ & _ & _ & Hother).
    eexists. apply Hother.
    + vm_compute. reflexivity.
    + discriminate.
    + discriminate.
  - destruct (parse_payload_body_resolution Sample.json_loads
                [ ("body", PDict Sample.coffee_body) ]) as (_ & _ & Hvalue & _).
    destruct (Hvalue (PDict Sample.coffee_body) eq_refl eq_refl) as (_ & Hmap & _).
    unfold Sample.coffee_event. rewrite (Hmap Sample.coffee_body eq_refl).
    reflexivity.
  - destruct (parse_payload_body_resolution Sample.json_loads Sample.coffee_body)
      as (_ & _ & _ & Habsent & _).
    destruct (Habsent eq_refl) as (_ & Hmap).
    rewrite Hmap. reflexivity.
  - destruct (parse_payload_body_resolution Sample.json_loads
                [ ("body", PDict [ ("date", PStr "24-10-2025") ]) ])
      as (_ & _ & _ & _ & _ & Hfield).
    apply (Hfield [ ("date", PStr "24-10-2025") ] "account").
    + reflexivity.
    + vm_compute. tauto.
    + reflexivity.
Defined.

(** C6: the fields are validated in the order date, description,
    category, amount, account, each by [validate_field] first; the first
    check that fails decides the outcome, whatever the later fields
    hold. *)
Theorem validation_order_fail_fast (json_loads : string -> result pyval)
    (event : pyval) (b : list (string * pyval)) :
  extract_body json_loads event = Ok (PDict b) ->
  Spec.required_fields = ["date"; "description"; "category"; "amount"; "account"] /\
  (forall key check e, In (key, check) Spec.field_checks ->
     validate_field (Spec.field b key) key = Raise e ->
     check (Spec.field b key) = Raise e) /\
  (forall i key check e,
     nth_error Spec.field_checks i = Some (key, check) ->
     (forall j key' check', j < i ->
        nth_error Spec.field_checks j = Some (key', check') ->
        exists r, check' (Spec.field b key') = Ok r) ->
     check (Spec.field b key) = Raise e ->
     parse_payload json_loads event = Raise e) /\
  (forall x,
     Spec.check_date (Spec.field b "date") = Ok (date x) ->
     Spec.check_description (Spec.field b "description") = Ok (description x) ->
     Spec.check_category (Spec.field b "category") = Ok (category x) ->
     Spec.check_amount (Spec.field b "amount") = Ok (amount x) ->
     Spec.check_account (Spec.field b "account") = Ok (account x) ->
     parse_payload json_loads event = Ok x).
Proof.
  intros Hb. rewrite (parse_payload_on_mapping _ _ _ Hb).
  split; [reflexivity |]. split; [| split].
  - intros key check e Hin Hreq. simpl in Hin.
    destruct Hin as [H | [H | [H | [H | [H | []]]]]]; inversion H; subst; clear H;
      unfold Spec.check_date, Spec.check_description, Spec.check_category,
        Spec.check_amount, Spec.check_account; now rewrite Hreq.
  - intros i key check e Hi Hprev He. unfold Spec.validate_fields.
    assert (H0 : 0 < i -> exists r, Spec.check_date (Spec.field b "date") = Ok r)
      by (intros Hlt; exact (Hprev 0 _ _ Hlt eq_refl)).
    assert (H1 : 1 < i ->
      exists r, Spec.check_description (Spec.field b "description") = Ok r)
      by (intros Hlt; exact (Hprev 1 _ _ Hlt eq_refl)).
    assert (H2 : 2 < i -> exists r, Spec.check_category (Spec.field b "category") = Ok r)
      by (intros Hlt; exact (Hprev 2 _ _ Hlt eq_refl)).
    assert (H3 : 3 < i -> exists r, Spec.check_amount (Spec.field b "amount") = Ok r)
      by (intros Hlt; exact (Hprev 3 _ _ Hlt eq_refl)).
    clear Hprev.
    destruct i as [| [| [| [| [| i]]]]]; simpl in Hi; inversion Hi; subst; clear Hi.
    + now rewrite He.
    + destruct H0 as [r0 ->]; [lia |]. cbn [bind]. now rewrite He.
    + destruct H0 as [r0 ->]; [lia |]. destruct H1 as [r1 ->]; [lia |].
      cbn [bind]. now rewrite He.
    + destruct H0 as [r0 ->]; [lia |]. destruct H1 as [r1 ->]; [lia |].
      destruct H2 as [r2 ->]; [lia |]. cbn [bind]. now rewrite He.
    + destruct H0 as [r0 ->]; [lia |]. destruct H1 as [r1 ->]; [lia |].
      destruct H2 as [r2 ->]; [lia |]. destruct H3 as [r3 ->]; [lia |].
      cbn [bind]. now rewrite He.
    + destruct i; discriminate.
  - intros x E1 E2 E3 E4 E5. unfold Spec.validate_fields.
    rewrite E1, E2, E3, E4, E5. cbn [bind]. now destruct x.
Qed.

Lemma validation_order_fail_fast_witness :
  parse_payload Sample.json_loads
    (PDict [ ("date", PStr "24-10-2025"); ("description", PStr "Coffee");
             ("category", PStr "Cafe"); ("amount", PStr "abc") ])
  = raise ExpenseError
      ("Categoría inválida. Opciones: " +:+ Str.join ", " VALID_CATEGORIES).
Proof.
  apply (proj1 (proj2 (proj2 (validation_order_fail_fast Sample.json_loads
    (PDict [ ("date", PStr "24-10-2025"); ("description", PStr "Coffee");
             ("category", PStr "Cafe"); ("amount", PStr "abc") ])
    [ ("date", PStr "24-10-2025"); ("description", PStr "Coffee");
      ("category", PStr "Cafe"); ("amount", PStr "abc") ]
    eq_refl))) 2 "category" Spec.check_category).
  - reflexivity.
  - intros j key' check' Hj Hn.
    destruct j as [| [| j]]; [| | lia]; simpl in Hn; inversion Hn; subst;
      eexists; reflexivity.
  - reflexivity.
Defined.

(** ** Handler *)

Lemma catches_exception (e : exn) : catches [Exception] e = true.
Proof. unfold catches. simpl. reflexivity. Qed.

Lemma handle_parse_raises (json_loads : string -> result pyval) (W : string)
    (event : pyval) (b : backend) (e : exn) :
  parse_payload json_loads event = Raise e ->
  handle json_loads W event b = (Raise e, b).
Proof. intros H. unfold handle, io_bind, lift. now rewrite H. Qed.

Lemma handle_parsed (json_loads : string -> result pyval) (W : string)
    (event : pyval) (b : backend) (x : expense) :
  parse_payload json_loads event = Ok x ->
  match append_to_sheet W x b with
  | (Ok range, b') =>
      exists resp, handle json_loads W event b = (Ok resp, b') /\
        statusCode resp = 200%Z
  | (Raise e, b') => handle json_loads W event b = (Raise e, b')
  end.
Proof.
  intros H. unfold handle, io_bind, lift. rewrite H.
  destruct (append_to_sheet W x b) as [[range | e] b']; [| reflexivity].
  eexists. split; reflexivity.
Qed.

(** The handler is its [try] statement when the text of the event is
    computed for the log, and raises what [json.dumps] raises
    otherwise. *)
Lemma lambda_handler_logged (json_loads : string -> result pyval)
    (json_dumps : pyval -> result string) (W : string) (event : pyval)
    (b : backend) (text : string) :
  json_dumps event = Ok text ->
  lambda_handler json_loads json_dumps W event b = respond json_loads W event b.
Proof. intros H. unfold lambda_handler, io_bind, lift. now rewrite H. Qed.

Lemma lambda_handler_log_raises (json_loads : string -> result pyval)
    (json_dumps : pyval -> result string) (W : string) (event : pyval)
    (b : backend) (e : exn) :
  json_dumps event = Raise e ->
  lambda_handler json_loads json_dumps W event b = (Raise e, b).
Proof. intros H. unfold lambda_handler, io_bind, lift. now rewrite H. Qed.

Lemma respond_expense_error (json_loads : string -> result pyval)
    (W : string) (event : pyval) (b b' : backend) (msg : string) :
  handle json_loads W event b = (raise ExpenseError msg, b') ->
  respond json_loads W event b
  = (Ok (create_response 400 (PDict [ ("error", PStr msg) ])), b').
Proof. intros H. unfold respond, io_try_except. now rewrite H. Qed.

Lemma respond_parse_error (json_loads : string -> result pyval)
    (W : string) (event : pyval) (b : backend) (msg : string) :
  parse_payload json_loads event = raise ExpenseError msg ->
  respond json_loads W event b
  = (Ok (create_response 400 (PDict [ ("error", PStr msg) ])), b).
Proof.
  intros H. apply respond_expense_error.
  now apply handle_parse_raises.
Qed.

Lemma not_expense_not_caught (e : exn) :
  exn_class e <> ExpenseError -> catches [ExpenseError] e = false.
Proof.
  intros H. unfold catches. simpl.
  destruct (exn_class e); try reflexivity. contradiction.
Qed.

Lemma respond_unexpected (json_loads : string -> result pyval)
    (W : string) (event : pyval) (b b' : backend) (e : exn) :
  handle json_loads W event b = (Raise e, b') ->
  exn_class e <> ExpenseError ->
  respond json_loads W event b
  = (Ok (create_response 500
           (PDict [ ("error", PStr "Error interno del servidor") ])), b').
Proof.
  intros H Hne. unfold respond, io_try_except. rewrite H. cbn [find_clause].
  now rewrite (not_expense_not_caught e Hne), catches_exception.
Qed.

(** The [try] statement answers whatever its body does. *)
Lemma respond_returns (json_loads : string -> result pyval) (W : string)
    (event : pyval) (b : backend) :
  exists resp, respond json_loads W event b
               = (Ok resp, snd (handle json_loads W event b)).
Proof.
  unfold respond, io_try_except.
  destruct (handle json_loads W event b) as [[r | e] b']; [now exists r |].
  cbn [find_clause snd]. destruct (catches [ExpenseError] e).
  - eexists. reflexivity.
  - rewrite catches_exception. eexists. reflexivity.
Qed.

(** The response to an unexpected failure, and its body as text. *)
Example internal_error_body :
  body (create_response 500 (PDict [ ("error", PStr "Error interno del servidor") ]))
  = "{" +:+ Str.dquote +:+ "error" +:+ Str.dquote +:+ ": "
      +:+ Str.dquote +:+ "Error interno del servidor" +:+ Str.dquote +:+ "}".
Proof. reflexivity. Qed.

(** C2, as the specification states it, fails twice.  On an event that
    holds a value nested too deep for [json.dumps], the first statement
    of the handler raises [RecursionError] outside the [try] statement:
    the handler raises and returns no response, although the body of the
    event is the valid request of the sample.  And on an event whose body
    is [null] the parser raises [AttributeError], the handler answers
    500, and the body of the response is not the object with the error
    ["internal server error"]. *)
Lemma lambda_handler_internal_error_text :
  (exists msg,
     lambda_handler Sample.json_loads Sample.json_dumps "Sheet1" Sample.deep_event
       Sample.header_sheet
     = (raise RecursionError msg, Sample.header_sheet)) /\
  handle Sample.json_loads "Sheet1" (PDict [ ("body", PNone) ]) Sample.empty_sheet
    = (raise AttributeError "'NoneType' object has no attribute 'get'",
       Sample.empty_sheet) /\
  lambda_handler Sample.json_loads Sample.json_dumps "Sheet1"
      (PDict [ ("body", PNone) ]) Sample.empty_sheet
    = (Ok (create_response 500
             (PDict [ ("error", PStr "Error interno del servidor") ])),
       Sample.empty_sheet) /\
  body (create_response 500
          (PDict [ ("error", PStr "Error interno del servidor") ]))
    <> Json.dumps Spec.internal_server_error.
Proof.
  split; [| split; [| split]].
  - eexists. vm_compute. reflexivity.
  - reflexivity.
  - reflexivity.
  - discriminate.
Qed.

(** C2, amended: for every event whose text [json.dumps] computes for
    the log, and every state of the service, the handler returns one
    response and does not raise; when the body of its [try] raises an
    exception that is not an [ExpenseError], the response has status 500
    and the body [{"error": "Error interno del servidor"}], the same for
    every such exception. *)
Theorem lambda_handler_always_responds (json_loads : string -> result pyval)
    (json_dumps : pyval -> result string) (W : string) (event : pyval)
    (b : backend) (text : string) :
  json_dumps event = Ok text ->
  exists resp b',
    lambda_handler json_loads json_dumps W event b = (Ok resp, b') /\
    forall e, fst (handle json_loads W event b) = Raise e ->
      exn_class e <> ExpenseError ->
      resp = create_response 500
               (PDict [ ("error", PStr "Error interno del servidor") ]) /\
      statusCode resp = 500%Z /\
      body resp
        = "{" +:+ Str.dquote +:+ "error" +:+ Str.dquote +:+ ": "
            +:+ Str.dquote +:+ "Error interno del servidor" +:+ Str.dquote +:+ "}".
Proof.
  intros Hlog. rewrite (lambda_handler_logged _ _ W event b text Hlog).
  destruct (respond_returns json_loads W event b) as [resp Hr].
  exists resp, (snd (handle json_loads W event b)).
  split; [exact Hr |]. intros e He Hne.
  destruct (handle json_loads W event b) as [r b'] eqn:Eh.
  cbn [fst snd] in He, Hr. subst r.
  rewrite (respond_unexpected json_loads W event b b' e Eh Hne) in Hr.
  inversion Hr. repeat split.
Qed.

Lemma lambda_handler_always_responds_witness :
  exists resp b',
    lambda_handler Sample.json_loads Sample.json_dumps "Sheet1"
      (PDict [ ("body", PInt 7) ]) Sample.empty_sheet = (Ok resp, b') /\
    statusCode resp = 500%Z.
Proof.
  destruct (lambda_handler_always_responds Sample.json_loads Sample.json_dumps
              "Sheet1" (PDict [ ("body", PInt 7) ]) Sample.empty_sheet
              (Json.dumps (PDict [ ("body", PInt 7) ])) eq_refl)
    as (resp & b' & E & H).
  exists resp, b'. split; [exact E |].
  apply (H (Exn AttributeError "'int' object has no attribute 'get'")).
  - reflexivity.
  - discriminate.
Defined.



(** ** Sheet writer *)

Lemma digits_no_letters (d : uint) (acc : nat) :
  Gspread.column_letters acc (NilZero.string_of_uint d)
  = (acc, NilZero.string_of_uint d).
Proof. destruct d; reflexivity. Qed.

Lemma to_uint_not_nil (n : nat) : Nat.to_uint n <> Nil.
Proof.
  intros H. pose proof (Unsigned.of_to n) as E. rewrite H in E.
  destruct n; [discriminate H | discriminate E].
Qed.

(** The label that the writer builds for a column and a row names that
    row and that column. *)
Lemma label_rowcol (col : string) (n : nat) :
  In col Spec.written_letters ->
  Gspread.a1_to_rowcol (col +:+ Str.of_nat (S n)) = Some (S n, Spec.column_number col).
Proof.
  intros Hin. unfold Gspread.a1_to_rowcol, Str.of_nat.
  assert (E : Gspread.column_letters 0 (col +:+ NilZero.string_of_uint (Nat.to_uint (S n)))
              = (Spec.column_number col, NilZero.string_of_uint (Nat.to_uint (S n)))).
  { simpl in Hin.
    destruct Hin as [<- | [<- | [<- | [<- | [<- | []]]]]];
      rewrite append_cons, append_nil; cbn [Gspread.column_letters];
      apply digits_no_letters. }
  rewrite E. rewrite (NilZero.usu _ (to_uint_not_nil (S n))).
  rewrite Unsigned.of_to.
  simpl in Hin.
  destruct Hin as [<- | [<- | [<- | [<- | [<- | []]]]]]; reflexivity.
Qed.

Lemma call_cells (b : backend) : cells (snd (Gspread.call b)) = cells b.
Proof.
  unfold Gspread.call. destruct (faults b) as [| [e |] fs]; reflexivity.
Qed.

Lemma call_healthy (b : backend) :
  Spec.healthy b ->
  exists fs, Gspread.call b = (Ok tt, Backend (cells b) fs) /\
    Forall (fun o => o = None) fs.
Proof.
  unfold Spec.healthy, Gspread.call. intros H.
  destruct b as [m fs]. simpl in *. destruct fs as [| [e |] fs].
  - exists []. split; [reflexivity | constructor].
  - inversion H. discriminate.
  - exists fs. split; [reflexivity | now inversion H].
Qed.

(** The service returns as many rows as the number of the last
    populated row, and one row for a worksheet without a value. *)
Lemma all_values_rows (m : gmap (nat * nat) cell) :
  length (Gspread.all_values m) = Nat.max 1 (Gspread.last_row m).
Proof.
  unfold Gspread.all_values. destruct (Gspread.last_row m) as [| n]; [reflexivity |].
  rewrite length_map, length_seq. lia.
Qed.

Lemma next_row_succ (m : gmap (nat * nat) cell) :
  Spec.next_row m = S (Nat.max 1 (Gspread.last_row m)).
Proof. unfold Spec.next_row. rewrite all_values_rows. lia. Qed.

Lemma last_row_bound (m : gmap (nat * nat) cell) (r c : nat) (v : cell) :
  m !! (r, c) = Some v -> r <= Gspread.last_row m.
Proof.
  unfold Gspread.last_row. revert r c v.
  apply (map_fold_weak_ind
           (fun acc (m : gmap (nat * nat) cell) =>
              forall r c v, m !! (r, c) = Some v -> r <= acc)).
  - intros r c v H. rewrite lookup_empty in H. discriminate.
  - intros k x m' acc Hnone IH r c v H.
    destruct (decide (k = (r, c))) as [-> | Hne].
    + simpl. lia.
    + rewrite lookup_insert_ne in H by assumption.
      specialize (IH r c v H). lia.
Qed.

Lemma last_row_least (m : gmap (nat * nat) cell) (bound : nat) :
  (forall r c v, m !! (r, c) = Some v -> r <= bound) ->
  Gspread.last_row m <= bound.
Proof.
  unfold Gspread.last_row.
  apply (map_fold_weak_ind
           (fun acc (m : gmap (nat * nat) cell) =>
              (forall r c v, m !! (r, c) = Some v -> r <= bound) -> acc <= bound)).
  - lia.
  - intros [kr kc] x m' acc Hnone IH H.
    assert (Hk : kr <= bound) by (apply (H kr kc x); apply lookup_insert_eq).
    assert (Hacc : acc <= bound).
    { apply IH. intros r c v Hm. apply (H r c v).
      rewrite lookup_insert_ne; [assumption |]. intros Heq. rewrite Heq in Hnone.
      congruence. }
    simpl. lia.
Qed.

Lemma last_row_insert (m : gmap (nat * nat) cell) (r c : nat) (v : cell) :
  Gspread.last_row (<[(r, c) := v]> m) = Nat.max r (Gspread.last_row m).
Proof.
  apply Nat.le_antisymm.
  - apply last_row_least. intros r' c' v' H.
    destruct (decide ((r, c) = (r', c'))) as [E | Hne].
    + inversion E. lia.
    + rewrite lookup_insert_ne in H by assumption.
      apply last_row_bound in H. lia.
  - apply Nat.max_lub.
    + apply (last_row_bound _ r c v). apply lookup_insert_eq.
    + apply last_row_least. intros r' c' v' H.
      destruct (decide ((r, c) = (r', c'))) as [E | Hne].
      * inversion E. subst. apply (last_row_bound _ r' c' v). apply lookup_insert_eq.
      * apply (last_row_bound _ r' c' v'). now rewrite lookup_insert_ne.
Qed.

Lemma last_row_write_cells (row : nat) (mapping : list (string * cell))
    (m : gmap (nat * nat) cell) :
  Gspread.last_row (Spec.write_cells row mapping m)
  = match mapping with
    | [] => Gspread.last_row m
    | _ :: _ => Nat.max row (Gspread.last_row m)
    end.
Proof.
  revert m. induction mapping as [| cv rest IH]; intros m; [reflexivity |].
  cbn [Spec.write_cells]. rewrite IH. destruct rest.
  - apply last_row_insert.
  - rewrite last_row_insert. lia.
Qed.

(** The row that the writer takes is after every populated row. *)
Lemma next_row_above (m : gmap (nat * nat) cell) (r c : nat) (v : cell) :
  m !! (r, c) = Some v -> r < Spec.next_row m.
Proof. intros H. apply last_row_bound in H. rewrite next_row_succ. lia. Qed.



Lemma first_rows_last (m : gmap (nat * nat) cell) (n : nat) :
  1 <= n -> Spec.first_rows m n -> Spec.last_populated m n.
Proof.
  intros Hn H. split; [exact Hn |]. split.
  - apply H. lia.
  - intros r Hr. apply H in Hr. lia.
Qed.

Lemma update_cell_run (n : nat) (cv : string * cell) (m : gmap (nat * nat) cell)
    (fs : list (option exn)) :
  In (fst cv) Spec.written_letters ->
  Spec.update_cell (S n) cv (Backend m fs) =
    if Gspread.json_compliant (snd cv) then
      match fs with
      | [] => (Ok tt, Backend (<[(S n, Spec.column_number (fst cv)) := snd cv]> m) [])
      | None :: fs' =>
          (Ok tt, Backend (<[(S n, Spec.column_number (fst cv)) := snd cv]> m) fs')
      | Some e :: fs' => (Raise e, Backend m fs')
      end
    else (raise Exception "Out of range float values are not JSON compliant",
          Backend m fs).
Proof.
  intros Hin. unfold Spec.update_cell, Gspread.update.
  destruct (Gspread.json_compliant (snd cv)); [| reflexivity].
  unfold io_bind, Gspread.call. cbn [faults cells].
  destruct fs as [| [e |] fs']; cbn [faults cells];
    rewrite ?(label_rowcol _ n Hin); reflexivity.
Qed.

(** The loop changes no cell outside the cells of its mapping. *)
Lemma for_each_frame (n : nat) (mapping : list (string * cell)) (b : backend)
    (key : nat * nat) :
  Spec.letters_only mapping ->
  (forall cv, In cv mapping -> key <> (S n, Spec.column_number (fst cv))) ->
  cells (snd (for_each mapping (Spec.update_cell (S n)) b)) !! key = cells b !! key.
Proof.
  revert b. induction mapping as [| cv rest IH]; intros b Hl Hkey; [reflexivity |].
  inversion Hl as [| ? ? Hcv Hrest]; subst.
  assert (Hne : key <> (S n, Spec.column_number (fst cv))) by (apply Hkey; now left).
  assert (Hk : forall cv', In cv' rest -> key <> (S n, Spec.column_number (fst cv')))
    by (intros cv' H; apply Hkey; now right).
  destruct b as [m fs]. cbn [for_each]. unfold io_bind.
  rewrite (update_cell_run n cv m fs Hcv).
  destruct (Gspread.json_compliant (snd cv)); [| reflexivity].
  destruct fs as [| [e |] fs']; try reflexivity;
    rewrite (IH _ Hrest Hk); cbn [cells]; now rewrite lookup_insert_ne.
Qed.


(** When the call of the update number [k] (from 0) fails, the cells of
    the [k] updates before it are written and stay written. *)
Lemma for_each_fails_at (n k : nat) (mapping : list (string * cell))
    (m : gmap (nat * nat) cell) (e : exn) (rest : list (option exn)) :
  Spec.letters_only mapping -> Spec.all_compliant (firstn (S k) mapping) ->
  k < length mapping ->
  for_each mapping (Spec.update_cell (S n))
    (Backend m (repeat None k ++ Some e :: rest))
  = (Raise e, Backend (Spec.write_cells (S n) (firstn k mapping) m) rest).
Proof.
  revert m k. induction mapping as [| cv tl IH]; intros m k Hl Hc Hk;
    [simpl in Hk; lia |].
  inversion Hl as [| ? ? Hcv Hrest]; subst.
  cbn [firstn] in Hc. inversion Hc as [| ? ? Hj Hcrest]; subst.
  cbn [for_each]. unfold io_bind. rewrite (update_cell_run n cv _ _ Hcv), Hj.
  destruct k as [| k]; cbn [repeat app firstn Spec.write_cells]; [reflexivity |].
  apply IH; [assumption | assumption | simpl in Hk; lia].
Qed.

(** When the value of the update number [j] (from 0) is one that the
    service does not accept, and the service is healthy, the loop stops
    there: the cells of the [j] updates before it are written and stay
    written. *)
Lemma for_each_refused (n j : nat) (mapping : list (string * cell))
    (m : gmap (nat * nat) cell) (fs : list (option exn)) (cv : string * cell) :
  Spec.letters_only mapping -> Spec.all_compliant (firstn j mapping) ->
  nth_error mapping j = Some cv -> Gspread.json_compliant (snd cv) = false ->
  Forall (fun o => o = None) fs ->
  exists fs',
    for_each mapping (Spec.update_cell (S n)) (Backend m fs)
    = (raise Exception "Out of range float values are not JSON compliant",
       Backend (Spec.write_cells (S n) (firstn j mapping) m) fs') /\
    Forall (fun o => o = None) fs'.
Proof.
  revert m fs j. induction mapping as [| c0 tl IH]; intros m fs j Hl Hc Hn Hj Hf;
    [destruct j; discriminate |].
  inversion Hl as [| ? ? Hcv Hrest]; subst.
  cbn [for_each]. unfold io_bind. rewrite (update_cell_run n c0 _ _ Hcv).
  destruct j as [| j].
  - cbn [nth_error] in Hn. inversion Hn. subst c0. rewrite Hj.
    exists fs. split; [reflexivity | assumption].
  - cbn [firstn] in Hc. inversion Hc as [| ? ? Hc0 Hctl]; subst. rewrite Hc0.
    cbn [nth_error] in Hn. cbn [firstn Spec.write_cells].
    destruct fs as [| [e |] fs'].
    + apply IH; assumption.
    + inversion Hf. discriminate.
    + apply IH; try assumption. now inversion Hf.
Qed.

Lemma all_compliant_firstn (k : nat) (mapping : list (string * cell)) :
  Spec.all_compliant mapping -> Spec.all_compliant (firstn k mapping).
Proof.
  unfold Spec.all_compliant. revert k.
  induction mapping as [| cv tl IH]; intros k H; [destruct k; constructor |].
  destruct k as [| k]; [constructor |]. inversion H. subst. cbn [firstn].
  constructor; [assumption | now apply IH].
Qed.

Lemma column_mapping_letters (expense : expense) (f : Float.t) :
  Spec.letters_only (column_mapping expense f).
Proof. repeat constructor; simpl; tauto. Qed.

Lemma column_mapping_compliant (expense : expense) (f : Float.t) :
  Float.finite f = true -> Spec.all_compliant (column_mapping expense f).
Proof. intros H. repeat constructor. exact H. Qed.

(** The five calls that precede the updates: either one of them fails
    and the cells are as before, or the writer goes on with the row after
    the last populated one and the same cells. *)
Lemma write_row_prefix (W : string) (expense : expense) (b : backend) :
  (exists e fs, write_row W expense b = (Raise e, Backend (cells b) fs)) \/
  (exists fs, write_row W expense b
              = Spec.fill_row W expense (Spec.append_row b) (Backend (cells b) fs)).
Proof.
  destruct b as [m fs]. unfold Spec.append_row, Spec.next_row. cbn [cells].
  unfold write_row, Gspread.from_service_account_file, Gspread.authorize,
    Gspread.open_by_key, Gspread.worksheet, Gspread.get_all_values.
  do 5 (destruct fs as [| [e |] fs];
        [ right; exists []; reflexivity
        | left; exists e, fs; reflexivity
        | ]).
  right. exists fs. reflexivity.
Qed.

Lemma write_row_connected (W : string) (expense : expense)
    (m : gmap (nat * nat) cell) (fs : list (option exn)) :
  write_row W expense (Backend m (None :: None :: None :: None :: None :: fs))
  = Spec.fill_row W expense (Spec.next_row m) (Backend m fs).
Proof. reflexivity. Qed.

Lemma write_row_healthy (W : string) (expense : expense) (b : backend) :
  Spec.healthy b ->
  exists fs, Forall (fun o => o = None) fs /\
    write_row W expense b
    = Spec.fill_row W expense (Spec.append_row b) (Backend (cells b) fs).
Proof.
  destruct b as [m fs]. unfold Spec.healthy, Spec.append_row, Spec.next_row.
  cbn [cells faults]. intros H.
  unfold write_row, Gspread.from_service_account_file, Gspread.authorize,
    Gspread.open_by_key, Gspread.worksheet, Gspread.get_all_values.
  do 5 (destruct fs as [| [e |] fs];
        [ exists []; split; [constructor | reflexivity]
        | exfalso; inversion H; discriminate
        | apply Forall_inv_tail in H ]).
  exists fs. split; [assumption | reflexivity].
Qed.

(** ** The text of a validated amount *)

Lemma list_ascii_app (a b : string) :
  list_ascii_of_string (a +:+ b)
  = (list_ascii_of_string a ++ list_ascii_of_string b)%list.
Proof.
  induction a as [| x a IH]; [reflexivity |].
  rewrite append_cons. simpl. now rewrite IH.
Qed.

Lemma uint_digits (d : uint) :
  forallb Strptime.is_digit (list_ascii_of_string (NilEmpty.string_of_uint d)) = true.
Proof. induction d; simpl; try assumption; reflexivity. Qed.

Lemma of_Z_digits (z : Z) :
  (0 <= z)%Z ->
  forallb Strptime.is_digit (list_ascii_of_string (Str.of_Z z)) = true /\
  list_ascii_of_string (Str.of_Z z) <> [].
Proof.
  intros Hz. unfold Str.of_Z. destruct z as [| p | p]; [split; [reflexivity | discriminate] | | lia].
  simpl. unfold NilZero.string_of_uint.
  destruct (Pos.to_uint p) eqn:E; simpl; try (split; [reflexivity | discriminate]);
    (split; [apply uint_digits | discriminate]).
Qed.

Lemma two_digits_shape (n : Z) :
  (0 <= n < 100)%Z ->
  exists d1 d2, list_ascii_of_string (Decimal.two_digits n) = [d1; d2] /\
    Strptime.is_digit d1 = true /\ Strptime.is_digit d2 = true.
Proof.
  intros Hn.
  assert (Hall : forallb Spec.two_digits_check (seq 0 100) = true) by (vm_compute; reflexivity).
  rewrite forallb_forall in Hall.
  specialize (Hall (Z.to_nat n)).
  assert (Hin : In (Z.to_nat n) (seq 0 100)) by (apply in_seq; lia).
  specialize (Hall Hin). unfold Spec.two_digits_check in Hall.
  rewrite Z2Nat.id in Hall by lia.
  destruct (list_ascii_of_string (Decimal.two_digits n)) as [| d1 [| d2 [| ? ?]]];
    try discriminate.
  apply andb_true_iff in Hall. exists d1, d2. tauto.
Qed.

Lemma rescale2_nonneg (c e : Z) : (0 <= c)%Z -> (0 <= Decimal.rescale2 c e)%Z.
Proof.
  intros Hc. unfold Decimal.rescale2.
  destruct (-2 <=? e)%Z eqn:E.
  - apply Z.leb_le in E. apply Z.mul_nonneg_nonneg; [assumption |].
    apply Z.pow_nonneg. lia.
  - apply Z.leb_gt in E.
    assert (Hd : (0 < 10 ^ (-2 - e))%Z) by (apply Z.pow_pos_nonneg; lia).
    pose proof (Z.div_pos c _ Hc Hd) as Hq.
    destruct (_ <? _)%Z; [lia |]. destruct (_ =? _)%Z; [| lia].
    destruct (Z.even _); lia.
Qed.

(** The rescaled coefficient is exact when no digit is dropped, and
    otherwise a nearest multiple of the dropped power of ten. *)
Lemma rescale2_nearest (c e : Z) :
  (0 <= c)%Z ->
  ((-2 <= e)%Z -> Decimal.rescale2 c e = (c * 10 ^ (e + 2))%Z) /\
  ((e < -2)%Z ->
   (2 * Z.abs (c - Decimal.rescale2 c e * 10 ^ (-2 - e)) <= 10 ^ (-2 - e))%Z).
Proof.
  intros Hc. unfold Decimal.rescale2. split; intros He.
  - apply Z.leb_le in He. now rewrite He.
  - assert (E : (-2 <=? e)%Z = false) by (apply Z.leb_gt; lia). rewrite E.
    assert (Hd : (0 < 10 ^ (-2 - e))%Z) by (apply Z.pow_pos_nonneg; lia).
    pose proof (Z.div_mod c _ (Z.neq_sym _ _ (Z.lt_neq _ _ Hd))) as Hdm.
    pose proof (Z.mod_pos_bound c _ Hd) as Hr.
    set (d := (10 ^ (-2 - e))%Z) in *.
    set (q := (c / d)%Z) in *. set (r := (c mod d)%Z) in *.
    destruct (d <? 2 * r)%Z eqn:E1; [apply Z.ltb_lt in E1; nia |].
    apply Z.ltb_ge in E1.
    destruct (2 * r =? d)%Z eqn:E2.
    + apply Z.eqb_eq in E2. destruct (Z.even q); nia.
    + nia.
Qed.

Lemma format_2f_shape (q : Z) :
  (0 <= q)%Z ->
  Spec.amount_shape (Str.of_Z (q / 100) +:+ "." +:+ Decimal.two_digits (q mod 100)).
Proof.
  intros Hq.
  assert (Ha : (0 <= q / 100)%Z) by (apply Z.div_pos; lia).
  assert (Hb : (0 <= q mod 100 < 100)%Z) by (apply Z.mod_pos_bound; lia).
  destruct (of_Z_digits _ Ha) as [Hd Hne].
  destruct (two_digits_shape _ Hb) as (d1 & d2 & E & H1 & H2).
  exists (list_ascii_of_string (Str.of_Z (q / 100))), d1, d2.
  repeat split; try assumption.
  rewrite !list_ascii_app, E. reflexivity.
Qed.

Lemma int_of_digits_nonneg (ds : list ascii) : (0 <= Decimal.int_of_digits ds)%Z.
Proof.
  unfold Decimal.int_of_digits.
  assert (H : forall acc, (0 <= acc)%Z ->
    (0 <= fold_left (fun a c => 10 * a + Decimal.digit c) ds acc)%Z).
  { induction ds as [| c ds IH]; intros acc Hacc; simpl; [assumption |].
    apply IH. unfold Decimal.digit. lia. }
  apply H. lia.
Qed.

Lemma of_string_coefficient (s : string) (neg : bool) (c e : Z) :
  Decimal.of_string s = Ok (Decimal.Finite neg c e) -> (0 <= c)%Z.
Proof.
  unfold Decimal.of_string.
  destruct (Decimal.take_sign _) as [sg body].
  destruct (Decimal.parse_number body) as [[c' e'] |] eqn:E.
  - intros H. inversion H. subst. unfold Decimal.parse_number in E.
    destruct (Decimal.span_digits body) as [ip r1].
    destruct (match r1 with [] => _ | _ :: _ => _ end) as [fp r2].
    destruct (Decimal.parse_exponent r2) as [ex |].
    + destruct ip, fp; try discriminate; inversion E; apply int_of_digits_nonneg.
    + destruct ip, fp; discriminate.
  - destruct (Decimal.parse_special sg body) as [d |] eqn:Es; [| discriminate].
    intros H. inversion H. subst. unfold Decimal.parse_special in Es.
    destruct (_ || _); [discriminate |].
    destruct (match map Decimal.lower body with [] => _ | _ :: _ => _ end)
      as [| ? [| ? [| ? ?]]]; try discriminate.
    destruct (_ && _); discriminate.
Qed.

(** An accepted amount is ["Infinity"] or has two decimal places. *)
Lemma validate_amount_shape (s r : string) :
  validate_amount s = Ok r -> r = "Infinity" \/ Spec.amount_shape r.
Proof.
  unfold validate_amount.
  destruct (Decimal.of_string _) as [d | e0] eqn:E;
    cbn [bind try_except find_clause];
    [| destruct (catches _ e0); discriminate].
  destruct d as [neg c ex | neg | neg]; simpl.
  - destruct (Z.eqb c 0) eqn:Ec; simpl; [discriminate |].
    destruct neg; simpl; [discriminate |].
    intros H. inversion H. right.
    rewrite append_nil. apply format_2f_shape, rescale2_nonneg.
    eapply of_string_coefficient; eassumption.
  - destruct neg; simpl; [discriminate |]. intros H. inversion H. now left.
  - discriminate.
Qed.

(** ** The float of a validated amount *)

Local Open Scope list_scope.

Lemma digit_cases (c : ascii) :
  Strptime.is_digit c = true ->
  In c ["0"; "1"; "2"; "3"; "4"; "5"; "6"; "7"; "8"; "9"]%char.
Proof.
  destruct c as [[] [] [] [] [] [] [] []]; vm_compute; intros H;
    try discriminate H; tauto.
Qed.

Lemma digit_not_space (c : ascii) (l : list ascii) :
  Strptime.is_digit c = true ->
  Str.drop_any Str.whitespace (c :: l) = None /\
  Str.drop_any (map (@rev nat) Str.whitespace) (c :: l) = None.
Proof.
  intros H. apply digit_cases in H. simpl in H.
  repeat (destruct H as [<- | H]; [split; reflexivity |]).
  destruct H.
Qed.

Lemma digit_plain (c : ascii) :
  Strptime.is_digit c = true ->
  Ascii.eqb c "_"%char = false /\ Ascii.eqb c "-"%char = false /\
  Ascii.eqb c "+"%char = false /\ Ascii.eqb c "."%char = false.
Proof.
  intros H. apply digit_cases in H. simpl in H.
  repeat (destruct H as [<- | H]; [repeat split |]).
  destruct H.
Qed.

Lemma strip_between_digits (c last : ascii) (mid : list ascii) :
  Strptime.is_digit c = true -> Strptime.is_digit last = true ->
  Str.rstrip_list (Str.lstrip_list (c :: mid ++ [last])) = c :: mid ++ [last].
Proof.
  intros Hc Hl.
  assert (E1 : Str.lstrip_list (c :: mid ++ [last]) = c :: mid ++ [last]).
  { unfold Str.lstrip_list. cbn [length Str.drop_while].
    now rewrite (proj1 (digit_not_space c _ Hc)). }
  rewrite E1. unfold Str.rstrip_list.
  assert (E2 : rev (c :: mid ++ [last]) = last :: rev (c :: mid)).
  { change (c :: mid ++ [last]) with ((c :: mid) ++ [last]).
    now rewrite rev_app_distr. }
  rewrite E2. cbn [length Str.drop_while].
  rewrite (proj2 (digit_not_space last _ Hl)).
  rewrite <- E2. apply rev_involutive.
Qed.


Lemma span_digits_app (ds rest : list ascii) (c : ascii) :
  forallb Strptime.is_digit ds = true -> Strptime.is_digit c = false ->
  Decimal.span_digits (ds ++ c :: rest) = (ds, c :: rest).
Proof.
  intros Hds Hc. induction ds as [| d ds IH]; simpl.
  - unfold Decimal.is_digit. now rewrite Hc.
  - simpl in Hds. apply andb_true_iff in Hds. destruct Hds as [Hd Hds].
    unfold Decimal.is_digit at 1. rewrite Hd. now rewrite (IH Hds).
Qed.




Lemma bind_returns {A B} (m : result A) (k : A -> result B) (y : B) :
  bind m k = Ok y -> exists a, m = Ok a /\ k a = Ok y.
Proof. destruct m as [a | e]; simpl; [eauto | discriminate]. Qed.


(** ** The writer and the cells *)

Lemma for_each_returns (n : nat) (mapping : list (string * cell))
    (m : gmap (nat * nat) cell) (fs : list (option exn)) (b' : backend) :
  Spec.letters_only mapping ->
  for_each mapping (Spec.update_cell (S n)) (Backend m fs) = (Ok tt, b') ->
  cells b' = Spec.write_cells (S n) mapping m.
Proof.
  revert m fs. induction mapping as [| cv rest IH]; intros m fs Hl.
  - intros H. inversion H. reflexivity.
  - inversion Hl as [| ? ? Hcv Hrest]; subst.
    cbn [for_each Spec.write_cells]. unfold io_bind.
    rewrite (update_cell_run n cv m fs Hcv).
    destruct (Gspread.json_compliant (snd cv)); [| discriminate].
    destruct fs as [| [e |] fs']; [| discriminate |]; now apply IH.
Qed.

(** The [except] clauses of the writer turn every exception into an
    [ExpenseError] and leave the service as it is. *)
Lemma append_to_sheet_outcome (W : string) (x : expense) (b : backend) :
  snd (append_to_sheet W x b) = snd (write_row W x b) /\
  match fst (write_row W x b) with
  | Ok range => fst (append_to_sheet W x b) = Ok range
  | Raise e => exists msg, fst (append_to_sheet W x b) = raise ExpenseError msg
  end.
Proof.
  unfold append_to_sheet, io_try_except.
  destruct (write_row W x b) as [[range | e] b']; [split; reflexivity |].
  cbn [find_clause]. destruct (catches [APIError] e).
  - split; [reflexivity | eexists; reflexivity].
  - rewrite catches_exception. split; [reflexivity | eexists; reflexivity].
Qed.

Lemma written_key (row r c : nat) (x : expense) (f : Float.t) :
  ~ (r = row /\ In c Spec.written_columns) ->
  forall cv, In cv (column_mapping x f) -> (r, c) <> (row, Spec.column_number (fst cv)).
Proof.
  intros Hout cv Hin Heq. apply Hout. inversion Heq. subst.
  split; [reflexivity |]. simpl in Hin.
  destruct Hin as [<- | [<- | [<- | [<- | [<- | []]]]]]; vm_compute; tauto.
Qed.

Lemma for_each_ok_compliant (n : nat) (mapping : list (string * cell))
    (b b' : backend) :
  Spec.letters_only mapping ->
  for_each mapping (Spec.update_cell (S n)) b = (Ok tt, b') ->
  Spec.all_compliant mapping.
Proof.
  revert b. induction mapping as [| cv rest IH]; intros [m fs] Hl; [constructor |].
  inversion Hl as [| ? ? Hcv Hrest]; subst.
  cbn [for_each]. unfold io_bind. rewrite (update_cell_run n cv m fs Hcv).
  destruct (Gspread.json_compliant (snd cv)) eqn:Ej; [| discriminate].
  destruct fs as [| [e |] fs']; [| discriminate |];
    intros H; (constructor; [exact Ej | exact (IH _ Hrest H)]).
Qed.

Lemma append_to_sheet_frame (W : string) (x : expense) (b : backend) (r c : nat) :
  ~ (r = Spec.append_row b /\ In c Spec.written_columns) ->
  cells (snd (append_to_sheet W x b)) !! (r, c) = cells b !! (r, c).
Proof.
  intros Hout. destruct (append_to_sheet_outcome W x b) as [-> _].
  destruct (write_row_prefix W x b) as [(e & fs & ->) | (fs & ->)]; [reflexivity |].
  unfold Spec.fill_row, io_bind, lift.
  destruct (Float.of_string (amount x)) as [f | e]; [| reflexivity].
  unfold Spec.append_row in *. rewrite next_row_succ in *.
  pose proof (for_each_frame _ (column_mapping x f)
                (Backend (cells b) fs) (r, c) (column_mapping_letters x f)
                (written_key _ r c x f Hout)) as Hf.
  destruct (for_each _ _ _) as [[u | e] b']; exact Hf.
Qed.

Lemma append_to_sheet_returns (W : string) (x : expense) (b b' : backend)
    (range : string) :
  append_to_sheet W x b = (Ok range, b') ->
  range = Spec.range_of_row W (Spec.append_row b) /\
  exists f, Float.of_string (amount x) = Ok f /\ Float.finite f = true /\
    cells b' = Spec.write_cells (Spec.append_row b) (column_mapping x f) (cells b).
Proof.
  intros H.
  destruct (append_to_sheet_outcome W x b) as [Hsnd Hfst].
  rewrite H in Hsnd, Hfst. cbn [fst snd] in Hsnd, Hfst.
  destruct (write_row_prefix W x b) as [(e & fs & E) | (fs & E)]; rewrite E in *.
  - destruct Hfst as [msg Hm]. discriminate.
  - clear E. unfold Spec.fill_row, io_bind, lift in *.
    destruct (Float.of_string (amount x)) as [f | e];
      [| destruct Hfst as [msg Hm]; discriminate].
    unfold Spec.append_row in *. rewrite next_row_succ in *.
    destruct (for_each _ _ _) as [[[] | e] b1] eqn:Ef;
      [| destruct Hfst as [msg Hm]; discriminate].
    cbn [fst snd io_ret] in Hfst, Hsnd. inversion Hfst. subst b'.
    split; [reflexivity |]. exists f. split; [reflexivity |]. split.
    + pose proof (for_each_ok_compliant _ _ _ _ (column_mapping_letters x f) Ef) as Hc.
      unfold Spec.all_compliant, column_mapping in Hc.
      do 3 apply Forall_inv_tail in Hc. apply Forall_inv in Hc. exact Hc.
    + apply (for_each_returns _ _ _ _ _ (column_mapping_letters x f) Ef).
Qed.

(** The writer wraps what the body of its [try] raises. *)
Lemma append_to_sheet_wraps (W : string) (x : expense) (b b' : backend) (e : exn) :
  write_row W x b = (Raise e, b') ->
  exists msg, append_to_sheet W x b = (raise ExpenseError msg, b').
Proof.
  intros E. unfold append_to_sheet, io_try_except. rewrite E.
  cbn [find_clause]. destruct (catches [APIError] e).
  - eexists. reflexivity.
  - rewrite catches_exception. eexists. reflexivity.
Qed.



Lemma append_to_sheet_refused (W : string) (x : expense)
    (m : gmap (nat * nat) cell) (fs : list (option exn)) (f : Float.t) :
  Float.of_string (amount x) = Ok f -> Float.finite f = false ->
  Forall (fun o => o = None) fs ->
  exists msg fs',
    append_to_sheet W x (Backend m fs)
    = (raise ExpenseError msg,
       Backend (Spec.write_cells (Spec.next_row m) (firstn 3 (column_mapping x f)) m)
               fs').
Proof.
  intros Hf Hfin Hh.
  destruct (write_row_healthy W x (Backend m fs) Hh) as (fs1 & Hfs1 & E).
  unfold Spec.append_row in E. cbn [cells] in E.
  unfold Spec.fill_row, io_bind, lift in E. rewrite Hf in E.
  rewrite next_row_succ in *.
  destruct (for_each_refused (Nat.max 1 (Gspread.last_row m)) 3
              (column_mapping x f) m fs1 ("G", CellFloat f)
              (column_mapping_letters x f)) as (fs' & Ef & _);
    [repeat constructor | reflexivity | exact Hfin | exact Hfs1 |].
  rewrite Ef in E.
  destruct (append_to_sheet_wraps W x _ _ _ E) as [msg Hm].
  exists msg, fs'. exact Hm.
Qed.

(** A failure of the writer is answered with status 400. *)
Lemma respond_writer_error (json_loads : string -> result pyval) (W : string)
    (event : pyval) (b b' : backend) (x : expense) (msg : string) :
  parse_payload json_loads event = Ok x ->
  append_to_sheet W x b = (raise ExpenseError msg, b') ->
  respond json_loads W event b
  = (Ok (create_response 400 (PDict [ ("error", PStr msg) ])), b').
Proof.
  intros Hp Ha. apply respond_expense_error.
  pose proof (handle_parsed json_loads W event b x Hp) as H.
  now rewrite Ha in H.
Qed.






(** C1, as the specification states it, fails when the service fails in
    the middle of the updates: on a worksheet with a title in its first
    row, with the third update failing, the writer raises, and the cells
    of the date and of the description of the second row, which were
    empty, are written. *)
Lemma append_to_sheet_not_atomic :
  Spec.append_row Sample.failing_third_update = 2 /\
  fst (append_to_sheet "Sheet1" Sample.coffee Sample.failing_third_update)
    = raise ExpenseError "Error al conectar con Google Sheets: quota exceeded" /\
  cells Sample.failing_third_update !! (2, 1) = None /\
  cells (snd (append_to_sheet "Sheet1" Sample.coffee Sample.failing_third_update))
    !! (2, 1) = Some (CellStr "24-10-2025") /\
  cells (snd (append_to_sheet "Sheet1" Sample.coffee Sample.failing_third_update))
    !! (2, 3) = Some (CellStr "Coffee") /\
  cells (snd (append_to_sheet "Sheet1" Sample.coffee Sample.failing_third_update))
    !! (2, 4) = None.
Proof. vm_compute. repeat split. Qed.

(** C1, amended: the writer does not undo what it wrote.  When one of
    the five calls that precede the updates fails, no cell is written;
    when the call of the update number [k] (from 0) fails, the cells of
    the [k] updates before it are written and stay written; and when the
    amount is not a finite number, the fourth update is refused and the
    cells of the three updates before it are written and stay written.
    In each case the writer raises an [ExpenseError], and the handler
    answers it with status 400 and the message of the error. *)
Theorem append_to_sheet_partial_write (json_loads : string -> result pyval)
    (json_dumps : pyval -> result string) (W : string) (event : pyval)
    (logged : string) (x : expense) (m : gmap (nat * nat) cell) (f : Float.t)
    (e : exn) (rest : list (option exn)) :
  parse_payload json_loads event = Ok x ->
  json_dumps event = Ok logged ->
  Float.of_string (amount x) = Ok f ->
  (forall n, n < 5 -> exists msg,
     append_to_sheet W x (Backend m (repeat None n ++ Some e :: rest))
     = (raise ExpenseError msg, Backend m rest) /\
     lambda_handler json_loads json_dumps W event
       (Backend m (repeat None n ++ Some e :: rest))
     = (Ok (create_response 400 (PDict [ ("error", PStr msg) ])), Backend m rest)) /\
  (forall k, k < 5 -> Float.finite f = true \/ k < 3 -> exists msg,
     append_to_sheet W x (Backend m (repeat None (5 + k) ++ Some e :: rest))
     = (raise ExpenseError msg,
        Backend (Spec.write_cells (Spec.next_row m)
                   (firstn k (column_mapping x f)) m) rest) /\
     lambda_handler json_loads json_dumps W event
       (Backend m (repeat None (5 + k) ++ Some e :: rest))
     = (Ok (create_response 400 (PDict [ ("error", PStr msg) ])),
        Backend (Spec.write_cells (Spec.next_row m)
                   (firstn k (column_mapping x f)) m) rest)) /\
  (Float.finite f = false ->
   forall fs, Forall (fun o => o = None) fs -> exists msg fs',
     append_to_sheet W x (Backend m fs)
     = (raise ExpenseError msg,
        Backend (Spec.write_cells (Spec.next_row m)
                   (firstn 3 (column_mapping x f)) m) fs') /\
     lambda_handler json_loads json_dumps W event (Backend m fs)
     = (Ok (create_response 400 (PDict [ ("error", PStr msg) ])),
        Backend (Spec.write_cells (Spec.next_row m)
                   (firstn 3 (column_mapping x f)) m) fs')).
Proof.
  intros Hparse Hlog Hfloat.
  assert (Hanswer : forall b b' msg,
    append_to_sheet W x b = (raise ExpenseError msg, b') ->
    lambda_handler json_loads json_dumps W event b
    = (Ok (create_response 400 (PDict [ ("error", PStr msg) ])), b')).
  { intros b b' msg Ha. rewrite (lambda_handler_logged _ _ W event b logged Hlog).
    exact (respond_writer_error json_loads W event b b' x msg Hparse Ha). }
  split; [| split].
  - intros n Hn.
    destruct (append_to_sheet_wraps W x
                (Backend m (repeat None n ++ Some e :: rest)) (Backend m rest) e)
      as [msg Hm].
    { destruct n as [| [| [| [| [| n]]]]]; [reflexivity .. | lia]. }
    exists msg. split; [exact Hm | exact (Hanswer _ _ _ Hm)].
  - intros k Hk Hc.
    destruct (append_to_sheet_wraps W x
                (Backend m (repeat None (5 + k) ++ Some e :: rest))
                (Backend (Spec.write_cells (Spec.next_row m)
                            (firstn k (column_mapping x f)) m) rest) e)
      as [msg Hm].
    { change (repeat None (5 + k) ++ Some e :: rest)
        with (None :: None :: None :: None :: None
                :: (repeat None k ++ Some e :: rest)).
      rewrite write_row_connected. unfold Spec.fill_row, io_bind, lift.
      rewrite Hfloat, next_row_succ.
      rewrite (for_each_fails_at _ k (column_mapping x f) m e rest
                 (column_mapping_letters x f)); [reflexivity | | exact Hk].
      destruct Hc as [Hfin | Hlt].
      - apply all_compliant_firstn, column_mapping_compliant, Hfin.
      - destruct k as [| [| [| k]]]; [repeat constructor .. | lia]. }
    exists msg. split; [exact Hm | exact (Hanswer _ _ _ Hm)].
  - intros Hfin fs Hfs.
    destruct (append_to_sheet_refused W x m fs f Hfloat Hfin Hfs) as (msg & fs' & Hm).
    exists msg, fs'. split; [exact Hm | exact (Hanswer _ _ _ Hm)].
Qed.

Lemma append_to_sheet_partial_write_witness :
  (exists msg,
     lambda_handler Sample.json_loads Sample.json_dumps "Sheet1" Sample.coffee_event
       Sample.failing_third_update
     = (Ok (create_response 400 (PDict [ ("error", PStr msg) ])),
        Backend (<[(2, 3) := CellStr "Coffee"]>
                   (<[(2, 1) := CellStr "24-10-2025"]> Sample.header_cells)) [])) /\
  (exists msg fs',
     lambda_handler Sample.json_loads Sample.json_dumps "Sheet1"
       Sample.infinite_event Sample.header_sheet
     = (Ok (create_response 400 (PDict [ ("error", PStr msg) ])),
        Backend (<[(2, 4) := CellStr "Almuerzo"]>
                   (<[(2, 3) := CellStr "Coffee"]>
                      (<[(2, 1) := CellStr "24-10-2025"]> Sample.header_cells)))
                fs')).
Proof.
  split.
  - destruct (proj1 (proj2 (append_to_sheet_partial_write Sample.json_loads
                Sample.json_dumps "Sheet1" Sample.coffee_event
                (Json.dumps Sample.coffee_event) Sample.coffee Sample.header_cells
                (Float.Of "3.50" true) (Exn APIError "quota exceeded") []
                eq_refl eq_refl eq_refl)) 2) as (msg & _ & H); [lia | now left |].
    exists msg. exact H.
  - destruct (proj2 (proj2 (append_to_sheet_partial_write Sample.json_loads
                Sample.json_dumps "Sheet1" Sample.infinite_event
                (Json.dumps Sample.infinite_event) Sample.infinite Sample.header_cells
                (Float.Of "Infinity" false) (Exn APIError "quota exceeded") []
                eq_refl eq_refl eq_refl)) eq_refl [] (Forall_nil_2 _))
      as (msg & fs' & _ & H).
    exists msg, fs'. exact H.
Defined.

(** ** End to end *)

Example range_of_row_sample : Spec.range_of_row "Sheet1" 5 = "Sheet1!A5:H5".
Proof. reflexivity. Qed.

(** The request of the specification: status 200, the amount normalised
    to ["3.50"], and the row after the title as the range. *)
Example lambda_handler_coffee :
  exists resp b',
    lambda_handler Sample.json_loads Sample.json_dumps "Sheet1" Sample.coffee_event
      Sample.header_sheet
      = (Ok resp, b') /\
    statusCode resp = 200%Z /\
    parse_payload Sample.json_loads Sample.coffee_event = Ok Sample.coffee /\
    amount Sample.coffee = "3.50" /\
    cells b' !! (2, 7) = Some (CellFloat (Float.Of "3.50" true)) /\
    cells b' !! (2, 8) = Some (CellStr "Cash").
Proof. do 2 eexists. vm_compute. repeat split. Qed.

(** An unknown category: status 400, with the options in the message. *)
Example lambda_handler_unknown_category :
  lambda_handler Sample.json_loads Sample.json_dumps "Sheet1"
    (PDict [ ("body", PDict [ ("date", PStr "24-10-2025");
                              ("description", PStr "Coffee");
                              ("category", PStr "NotACategory");
                              ("amount", PStr "3.5");
                              ("account", PStr "Cash") ]) ])
    Sample.header_sheet
  = (Ok (create_response 400
           (PDict [ ("error",
                     PStr ("Categoría inválida. Opciones: "
                             +:+ Str.join ", " VALID_CATEGORIES)) ])),
     Sample.header_sheet).
Proof. reflexivity. Qed.

(** An infinite amount passes the validation and then stops the writer
    at the fourth update: three cells of the row are written. *)
Example lambda_handler_infinite_amount :
  exists resp b',
    lambda_handler Sample.json_loads Sample.json_dumps "Sheet1"
      Sample.infinite_event Sample.header_sheet
      = (Ok resp, b') /\
    statusCode resp = 400%Z /\
    cells b' !! (2, 4) = Some (CellStr "Almuerzo") /\
    cells b' !! (2, 7) = None.
Proof. do 2 eexists. vm_compute. repeat split. Qed.

(** A text that opens too many arrays: the decoder raises
    [RecursionError], the parser lets it through, and the handler answers
    500. *)
Example lambda_handler_deep_text :
  exists msg,
    parse_payload Sample.json_loads (PDict [ ("body", PStr Sample.deep_text) ])
      = raise RecursionError msg /\
    lambda_handler Sample.json_loads Sample.json_dumps "Sheet1"
      (PDict [ ("body", PStr Sample.deep_text) ]) Sample.header_sheet
    = (Ok (create_response 500
             (PDict [ ("error", PStr "Error interno del servidor") ])),
       Sample.header_sheet).
Proof. eexists. vm_compute. split; reflexivity. Qed.

(** * Further properties *)

(** ** The number of a validated amount *)

Lemma fold_uint_acc (d : uint) (acc : positive) :
  Text.fold_digits (list_ascii_of_string (NilEmpty.string_of_uint d)) (Z.pos acc)
  = Z.pos (Pos.of_uint_acc d acc).
Proof.
  revert acc. induction d; intros acc; simpl; try reflexivity;
    unfold Text.fold_digits in *; rewrite <- IHd; f_equal;
    unfold Decimal.digit, Strptime.digit; simpl; lia.
Qed.

Lemma fold_uint (d : uint) :
  Text.fold_digits (list_ascii_of_string (NilEmpty.string_of_uint d)) 0%Z
  = Z.of_N (Pos.of_uint d).
Proof.
  induction d; simpl; try reflexivity; try exact IHd;
    apply (fold_uint_acc d).
Qed.

Lemma int_of_digits_of_Z (z : Z) :
  (0 <= z)%Z -> Decimal.int_of_digits (list_ascii_of_string (Str.of_Z z)) = z.
Proof.
  intros Hz. destruct z as [| p | p]; [reflexivity | | lia].
  unfold Str.of_Z. simpl.
  pose proof (DecimalPos.Unsigned.of_to p) as E.
  assert (En : NilZero.string_of_uint (Pos.to_uint p)
               = NilEmpty.string_of_uint (Pos.to_uint p)).
  { destruct (Pos.to_uint p); [discriminate E | reflexivity ..]. }
  rewrite En. change (Decimal.int_of_digits ?l) with (Text.fold_digits l 0%Z).
  rewrite fold_uint, E. reflexivity.
Qed.


Lemma string_of_list_eq (a b : string) :
  list_ascii_of_string a = list_ascii_of_string b -> a = b.
Proof.
  intros H. rewrite <- (string_of_list_ascii_of_string a),
    <- (string_of_list_ascii_of_string b). now rewrite H.
Qed.

Lemma remove_absent (a : ascii) (s : string) :
  forallb (fun c => negb (Ascii.eqb c a)) (list_ascii_of_string s) = true ->
  Str.remove a s = s.
Proof.
  induction s as [| c s IH]; simpl; [reflexivity |].
  intros H. apply andb_true_iff in H. destruct H as [Hc Hs].
  apply negb_true_iff in Hc. rewrite Hc. f_equal. now apply IH.
Qed.

Lemma replace_absent (a b : ascii) (s : string) :
  forallb (fun c => negb (Ascii.eqb c a)) (list_ascii_of_string s) = true ->
  Str.replace a b s = s.
Proof.
  induction s as [| c s IH]; simpl; [reflexivity |].
  intros H. apply andb_true_iff in H. destruct H as [Hc Hs].
  apply negb_true_iff in Hc. rewrite Hc. f_equal. now apply IH.
Qed.

Lemma digits_without (a : ascii) (ds : list ascii) :
  Strptime.is_digit a = false ->
  forallb Strptime.is_digit ds = true ->
  forallb (fun c => negb (Ascii.eqb c a)) ds = true.
Proof.
  intros Ha. induction ds as [| d ds IH]; simpl; [reflexivity |].
  intros H. apply andb_true_iff in H. destruct H as [Hd Hds].
  rewrite (IH Hds), andb_true_r. apply negb_true_iff.
  destruct (Ascii.eqb_spec d a) as [-> |]; [congruence | reflexivity].
Qed.

Lemma amount_shape_without (a : ascii) (r : string) :
  Strptime.is_digit a = false -> Ascii.eqb "."%char a = false ->
  Spec.amount_shape r ->
  forallb (fun c => negb (Ascii.eqb c a)) (list_ascii_of_string r) = true.
Proof.
  intros Ha Hp (ip & d1 & d2 & _ & Hip & H1 & H2 & E). rewrite E.
  rewrite forallb_app, (digits_without a ip Ha Hip). cbn [forallb andb].
  rewrite Hp. cbn [negb andb].
  change (forallb (fun c => negb (Ascii.eqb c a)) [d1; d2] = true).
  apply digits_without; [assumption |]. cbn [forallb]. now rewrite H1, H2.
Qed.

Lemma amount_shape_strip (r : string) : Spec.amount_shape r -> Str.strip r = r.
Proof.
  intros (ip & d1 & d2 & Hne & Hip & H1 & H2 & E).
  destruct ip as [| i1 ip]; [contradiction |].
  simpl in Hip. apply andb_true_iff in Hip. destruct Hip as [Hi1 Hip].
  assert (E' : list_ascii_of_string r = i1 :: (ip ++ ["."%char; d1]) ++ [d2])
    by (rewrite E; simpl; now rewrite <- app_assoc).
  unfold Str.strip. rewrite E'.
  rewrite (strip_between_digits i1 d2 _ Hi1 H2), <- E'.
  apply string_of_list_ascii_of_string.
Qed.

Lemma int_of_digits_two_more (ip : list ascii) (d1 d2 : ascii) :
  Decimal.int_of_digits (ip ++ [d1; d2])
  = (100 * Decimal.int_of_digits ip + Decimal.int_of_digits [d1; d2])%Z.
Proof.
  unfold Decimal.int_of_digits. rewrite fold_left_app. simpl. lia.
Qed.

(** The decimal that the text of an amount denotes. *)
Lemma of_string_amount (r : string) (ip : list ascii) (d1 d2 : ascii) :
  ip <> [] -> forallb Strptime.is_digit ip = true ->
  Strptime.is_digit d1 = true -> Strptime.is_digit d2 = true ->
  list_ascii_of_string r = ip ++ "."%char :: [d1; d2] ->
  Decimal.of_string r
  = Ok (Decimal.Finite false
          (100 * Decimal.int_of_digits ip + Decimal.int_of_digits [d1; d2]) (-2)).
Proof.
  intros Hne Hip H1 H2 E.
  assert (Hs : Spec.amount_shape r) by (exists ip, d1, d2; tauto).
  unfold Decimal.of_string.
  rewrite (amount_shape_strip r Hs).
  rewrite (remove_absent _ r (amount_shape_without "_"%char r eq_refl eq_refl Hs)).
  rewrite E. destruct ip as [| i1 ip]; [contradiction |].
  simpl in Hip. apply andb_true_iff in Hip. destruct Hip as [Hi1 Hip].
  unfold Decimal.take_sign. cbn [app].
  destruct (digit_plain i1 Hi1) as (_ & -> & -> & _).
  unfold Decimal.parse_number.
  change (i1 :: ip ++ "."%char :: [d1; d2])
    with ((i1 :: ip) ++ "."%char :: [d1; d2]).
  rewrite span_digits_app; [| simpl; now rewrite Hi1 | reflexivity].
  cbn [Ascii.eqb Bool.eqb]. simpl Decimal.span_digits.
  unfold Decimal.is_digit. rewrite H1, H2. cbn [Decimal.parse_exponent length].
  rewrite int_of_digits_two_more. reflexivity.
Qed.

Lemma two_digits_value (n : Z) :
  (0 <= n < 100)%Z ->
  Decimal.int_of_digits (list_ascii_of_string (Decimal.two_digits n)) = n.
Proof.
  intros Hn.
  assert (Hall : forallb Text.two_digits_value_check (seq 0 100) = true)
    by (vm_compute; reflexivity).
  rewrite forallb_forall in Hall.
  specialize (Hall (Z.to_nat n) ltac:(apply in_seq; lia)).
  unfold Text.two_digits_value_check in Hall. rewrite Z2Nat.id in Hall by lia.
  now apply Z.eqb_eq in Hall.
Qed.

Lemma cents_text_shape (q : Z) : (0 <= q)%Z -> Spec.amount_shape (Text.cents q).
Proof. apply format_2f_shape. Qed.

(** The text of [q] hundredths reads as the decimal [q] with exponent
    [-2]. *)
Lemma cents_text_round_trip (q : Z) :
  (0 <= q)%Z ->
  Decimal.of_string (Text.cents q) = Ok (Decimal.Finite false q (-2)).
Proof.
  intros Hq.
  assert (Ha : (0 <= q / 100)%Z) by (apply Z.div_pos; lia).
  assert (Hb : (0 <= q mod 100 < 100)%Z) by (apply Z.mod_pos_bound; lia).
  destruct (of_Z_digits _ Ha) as [Hd Hne].
  destruct (two_digits_shape _ Hb) as (d1 & d2 & E & H1 & H2).
  rewrite (of_string_amount (Text.cents q) _ d1 d2 Hne Hd H1 H2).
  - rewrite <- E, two_digits_value by assumption.
    rewrite int_of_digits_of_Z by assumption.
    do 2 f_equal. pose proof (Z.div_mod q 100). lia.
  - unfold Text.cents. rewrite !list_ascii_app, E. reflexivity.
Qed.

Lemma of_string_raises (s : string) (e : exn) :
  Decimal.of_string s = Raise e -> exn_class e = InvalidOperation.
Proof.
  unfold Decimal.of_string.
  destruct (Decimal.take_sign _) as [neg body].
  destruct (Decimal.parse_number body) as [[c ex] |]; [discriminate |].
  destruct (Decimal.parse_special neg body); [discriminate |].
  intros H. now inversion H.
Qed.

(** [validate_amount] by cases on the decimal that its argument reads
    as. *)
Lemma validate_amount_cases (s : string) :
  validate_amount s =
  match Decimal.of_string (Str.replace ","%char "."%char s) with
  | Ok (Decimal.Finite neg c e) =>
      if Z.eqb c 0 || neg then raise ExpenseError "El monto debe ser mayor a cero"
      else Ok (Decimal.format_2f (Decimal.Finite neg c e))
  | Ok (Decimal.Infinity neg) =>
      if neg then raise ExpenseError "El monto debe ser mayor a cero"
      else Ok "Infinity"
  | Ok (Decimal.NaN _) => raise ExpenseError ("Monto inválido: " +:+ s)
  | Raise _ => raise ExpenseError ("Monto inválido: " +:+ s)
  end.
Proof.
  unfold validate_amount.
  destruct (Decimal.of_string _) as [[neg c e | neg | neg] | e0] eqn:E;
    cbn [bind Decimal.le_zero try_except].
  - destruct (Z.eqb c 0 || neg); reflexivity.
  - destruct neg; reflexivity.
  - reflexivity.
  - apply of_string_raises in E. cbn [find_clause]. unfold catches. rewrite E.
    reflexivity.
Qed.

Lemma format_2f_cents (c e : Z) :
  Decimal.format_2f (Decimal.Finite false c e) = Text.cents (Decimal.rescale2 c e).
Proof. reflexivity. Qed.

Lemma amount_shape_two_decimals (r : string) :
  Spec.amount_shape r -> Spec.two_decimal_places r = true.
Proof.
  intros (ip & d1 & d2 & Hne & Hip & H1 & H2 & E).
  unfold Spec.two_decimal_places. rewrite E, rev_app_distr. simpl.
  assert (Hr : forallb Strptime.is_digit (rev ip) = true).
  { rewrite forallb_forall in *. intros c Hc. apply Hip. now apply in_rev. }
  destruct (rev ip) as [| x xs] eqn:Er.
  - apply (f_equal (@rev ascii)) in Er. rewrite rev_involutive in Er.
    simpl in Er. contradiction.
  - unfold Spec.is_digit. rewrite H1, H2. simpl in Hr. simpl. exact Hr.
Qed.

(** X1: what [validate_amount] returns is the text ["Infinity"] or the
    text of a number of hundredths, with two decimal places; and an
    [ExpenseError] that it raises has one of two messages: that of an
    amount that is not greater than zero, and that of an amount that does
    not read as a decimal, which quotes the argument as it was given. *)
Theorem validate_amount_outcomes (s : string) :
  (forall r, validate_amount s = Ok r ->
     r = "Infinity" \/
     exists q, (0 <= q)%Z /\ r = Text.cents q /\
       Spec.two_decimal_places r = true) /\
  (forall msg, validate_amount s = raise ExpenseError msg ->
     msg = "El monto debe ser mayor a cero" \/
     msg = "Monto inválido: " +:+ s).
Proof.
  rewrite validate_amount_cases.
  destruct (Decimal.of_string _) as [[neg c e | neg | neg] | e0] eqn:E.
  - destruct (Z.eqb c 0) eqn:Ec; cbn [orb].
    { split; [discriminate | intros msg H; inversion H; now left]. }
    destruct neg.
    { split; [discriminate | intros msg H; inversion H; now left]. }
    split; [| discriminate]. intros r H. inversion H. right.
    exists (Decimal.rescale2 c e).
    assert (Hq : (0 <= Decimal.rescale2 c e)%Z).
    { apply rescale2_nonneg. eapply of_string_coefficient; eassumption. }
    split; [exact Hq |]. split; [reflexivity |].
    apply amount_shape_two_decimals, cents_text_shape, Hq.
  - destruct neg.
    + split; [discriminate | intros msg H; inversion H; now left].
    + split; [| discriminate]. intros r H. inversion H. now left.
  - split; [discriminate | intros msg H; inversion H; now right].
  - split; [discriminate | intros msg H; inversion H; now right].
Qed.

Lemma rescale2_cents (q : Z) : Decimal.rescale2 q (-2) = q.
Proof. unfold Decimal.rescale2. simpl. lia. Qed.

Lemma validate_amount_cents (q : Z) :
  (0 <= q)%Z ->
  validate_amount (Text.cents q) =
    if Z.eqb q 0 then raise ExpenseError "El monto debe ser mayor a cero"
    else Ok (Text.cents q).
Proof.
  intros Hq. rewrite validate_amount_cases.
  rewrite (replace_absent _ _ _
             (amount_shape_without ","%char _ eq_refl eq_refl (cents_text_shape q Hq))).
  rewrite (cents_text_round_trip q Hq). rewrite orb_false_r.
  destruct (Z.eqb q 0); [reflexivity |].
  now rewrite format_2f_cents, rescale2_cents.
Qed.

Lemma validate_amount_result (s r : string) :
  validate_amount s = Ok r ->
  r = "Infinity" \/ exists q, (0 <= q)%Z /\ r = Text.cents q.
Proof.
  rewrite validate_amount_cases.
  destruct (Decimal.of_string _) as [[neg c e | neg | neg] | e0] eqn:E;
    try discriminate.
  - destruct (Z.eqb c 0); cbn [orb]; [discriminate |].
    destruct neg; [discriminate |]. intros H. inversion H. right.
    exists (Decimal.rescale2 c e). split; [| reflexivity].
    apply rescale2_nonneg. eapply of_string_coefficient; eassumption.
  - destruct neg; [discriminate |]. intros H. inversion H. now left.
Qed.

(** X3: [validate_amount] is idempotent on what it returns, but for the
    amounts that round to zero: the text ["0.00"] is returned for a
    positive amount below half a hundredth, and is itself refused. *)
Theorem validate_amount_idempotent (s r : string) :
  validate_amount s = Ok r ->
  validate_amount r = Ok r \/
  (r = "0.00" /\
   validate_amount r = raise ExpenseError "El monto debe ser mayor a cero").
Proof.
  intros H.
  destruct (validate_amount_result s r H) as [-> | (q & Hq & ->)].
  - left. reflexivity.
  - rewrite (validate_amount_cents q Hq).
    destruct (Z.eqb q 0) eqn:E0; [| now left].
    right. apply Z.eqb_eq in E0. subst q. split; reflexivity.
Qed.

Lemma validate_amount_idempotent_witness :
  validate_amount "3.50" = Ok "3.50" /\
  validate_amount "0.00" = raise ExpenseError "El monto debe ser mayor a cero".
Proof.
  split.
  - destruct (validate_amount_idempotent "3,5" "3.50" eq_refl) as [H | [H _]];
      [exact H | discriminate H].
  - destruct (validate_amount_idempotent "0.004" "0.00" eq_refl) as [H | [_ H]];
      [discriminate H | exact H].
Defined.

Lemma replace_twice (a b : ascii) (s : string) :
  Ascii.eqb b a = false ->
  Str.replace a b (Str.replace a b s) = Str.replace a b s.
Proof.
  intros Hab. induction s as [| c s IH]; simpl; [reflexivity |].
  rewrite IH. f_equal.
  destruct (Ascii.eqb c a) eqn:E; [now rewrite Hab | now rewrite E].
Qed.

(** X2: an amount written with commas is accepted when, and as, the
    amount with points in their place. *)
Theorem validate_amount_comma_or_point (s r : string) :
  validate_amount s = Ok r <->
  validate_amount (Str.replace ","%char "."%char s) = Ok r.
Proof.
  rewrite !validate_amount_cases, replace_twice by reflexivity.
  destruct (Decimal.of_string _) as [[neg c e | neg | neg] | e0];
    try (split; discriminate).
  - destruct (_ || _); [split; discriminate | tauto].
  - destruct neg; [split; discriminate | tauto].
Qed.

(** X4: when [validate_amount] returns for an amount that reads as the
    decimal [c * 10^e], what it returns is the text of a number [q] of
    hundredths that reads back as [q * 10^-2]: [q] is the amount itself
    when the amount has at most two decimal places, and otherwise a
    nearest number of hundredths, the even one on a tie. *)
Theorem validate_amount_rounds_to_nearest (s r : string) (c e : Z) :
  Decimal.of_string (Str.replace ","%char "."%char s)
    = Ok (Decimal.Finite false c e) ->
  validate_amount s = Ok r ->
  exists q,
    r = Text.cents q /\
    Decimal.of_string r = Ok (Decimal.Finite false q (-2)) /\
    ((-2 <= e)%Z -> q = (c * 10 ^ (e + 2))%Z) /\
    ((e < -2)%Z ->
     (2 * Z.abs (c - q * 10 ^ (-2 - e)) <= 10 ^ (-2 - e))%Z /\
     ((2 * Z.abs (c - q * 10 ^ (-2 - e)) = 10 ^ (-2 - e))%Z -> Z.even q = true)).
Proof.
  intros E Hr. exists (Decimal.rescale2 c e).
  assert (Hc0 : (0 <= c)%Z) by (eapply of_string_coefficient; eassumption).
  rewrite validate_amount_cases, E in Hr.
  destruct (Z.eqb c 0 || false); [discriminate |]. injection Hr as Hr'.
  change (Text.cents (Decimal.rescale2 c e) = r) in Hr'. subst r.
  split; [reflexivity |]. split; [| split].
  - apply cents_text_round_trip, rescale2_nonneg, Hc0.
  - apply (rescale2_nearest c e Hc0).
  - intros He. split; [now apply (rescale2_nearest c e Hc0) |].
    unfold Decimal.rescale2.
    assert (El : (-2 <=? e)%Z = false) by (apply Z.leb_gt; lia). rewrite El.
    assert (Hd : (0 < 10 ^ (-2 - e))%Z) by (apply Z.pow_pos_nonneg; lia).
    pose proof (Z.div_mod c _ (Z.neq_sym _ _ (Z.lt_neq _ _ Hd))) as Hdm.
    pose proof (Z.mod_pos_bound c _ Hd) as Hr0.
    set (d := (10 ^ (-2 - e))%Z) in *.
    set (q := (c / d)%Z) in *. set (r0 := (c mod d)%Z) in *.
    destruct (d <? 2 * r0)%Z eqn:E1; [apply Z.ltb_lt in E1 |apply Z.ltb_ge in E1].
    + intros Ht. exfalso. nia.
    + destruct (2 * r0 =? d)%Z eqn:E2.
      * destruct (Z.even q) eqn:Ev; intros _; [exact Ev |].
        rewrite Z.even_add, Ev. reflexivity.
      * apply Z.eqb_neq in E2. intros Ht. exfalso. nia.
Qed.


Lemma digit_bound (c : ascii) : Strptime.is_digit c = true -> Strptime.digit c <= 9.
Proof.
  unfold Strptime.is_digit, Strptime.digit. intros H.
  apply andb_true_iff in H. destruct H as [_ H]. apply Nat.leb_le in H. lia.
Qed.

Lemma between_bound (lo hi : nat) (c : ascii) :
  Strptime.between lo hi c = true -> lo <= Strptime.digit c <= hi.
Proof.
  unfold Strptime.between. intros H.
  apply andb_true_iff in H. destruct H as [H Hhi].
  apply andb_true_iff in H. destruct H as [_ Hlo].
  apply Nat.leb_le in Hlo, Hhi. lia.
Qed.

Lemma two_digits_in (p1 p2 : ascii -> bool) (s r : list ascii) (v : nat) :
  In (v, r) (Strptime.two_digits p1 p2 s) ->
  exists a b, s = a :: b :: r /\ p1 a = true /\ p2 b = true /\
    v = 10 * Strptime.digit a + Strptime.digit b.
Proof.
  unfold Strptime.two_digits. destruct s as [| a [| b t]]; try (intros []).
  destruct (p1 a) eqn:E1; [| intros []]. destruct (p2 b) eqn:E2; [| intros []].
  simpl. intros [H | []]. inversion H. subst. exists a, b. tauto.
Qed.

Lemma one_digit_in (p : ascii -> bool) (s r : list ascii) (v : nat) :
  In (v, r) (Strptime.one_digit p s) ->
  exists a, s = a :: r /\ p a = true /\ v = Strptime.digit a.
Proof.
  unfold Strptime.one_digit. destruct s as [| a t]; try (intros []).
  destruct (p a) eqn:E1; [| intros []].
  simpl. intros [H | []]. inversion H. subst. exists a. tauto.
Qed.

Lemma space_digit_in (p : ascii -> bool) (s r : list ascii) (v : nat) :
  In (v, r) (Strptime.space_digit p s) ->
  exists b, s = " "%char :: b :: r /\ p b = true /\ v = Strptime.digit b.
Proof.
  unfold Strptime.space_digit. destruct s as [| a [| b t]]; try (intros []).
  destruct (Ascii.eqb_spec a " "%char) as [-> |]; [| intros []].
  destruct (p b) eqn:E2; [| intros []].
  simpl. intros [H | []]. inversion H. subst. exists b. tauto.
Qed.

Lemma day_re_bound (s r : list ascii) (v : nat) :
  In (v, r) (Strptime.day_re s) -> 1 <= v <= 31.
Proof.
  unfold Strptime.day_re, Strptime.alt. cbn [flat_map]. rewrite !in_app_iff.
  intros [H | [H | [H | [H | [H | []]]]]].
  - apply two_digits_in in H. destruct H as (a & b & _ & Ha & Hb & ->).
    apply between_bound in Ha, Hb. lia.
  - apply two_digits_in in H. destruct H as (a & b & _ & Ha & Hb & ->).
    apply between_bound in Ha. apply digit_bound in Hb. lia.
  - apply two_digits_in in H. destruct H as (a & b & _ & Ha & Hb & ->).
    apply between_bound in Ha, Hb. lia.
  - apply one_digit_in in H. destruct H as (a & _ & Ha & ->).
    apply between_bound in Ha. lia.
  - apply space_digit_in in H. destruct H as (a & _ & Ha & ->).
    apply between_bound in Ha. lia.
Qed.

Lemma month_re_bound (s r : list ascii) (v : nat) :
  In (v, r) (Strptime.month_re s) -> 1 <= v <= 12.
Proof.
  unfold Strptime.month_re, Strptime.alt. cbn [flat_map]. rewrite !in_app_iff.
  intros [H | [H | [H | []]]].
  - apply two_digits_in in H. destruct H as (a & b & _ & Ha & Hb & ->).
    apply between_bound in Ha, Hb. lia.
  - apply two_digits_in in H. destruct H as (a & b & _ & Ha & Hb & ->).
    apply between_bound in Ha, Hb. lia.
  - apply one_digit_in in H. destruct H as (a & _ & Ha & ->).
    apply between_bound in Ha. lia.
Qed.

Lemma year_re_bound (s r : list ascii) (v : nat) :
  In (v, r) (Strptime.year_re s) -> (Z.of_nat v <= 9999)%Z.
Proof.
  unfold Strptime.year_re. destruct s as [| a [| b [| c [| d t]]]]; try (intros []).
  destruct (_ && _) eqn:E; [| intros []].
  do 3 (apply andb_true_iff in E; destruct E as [E ?]).
  cbn [In]. intros [Hin | []]. injection Hin as Hv _. rewrite <- Hv.
  repeat match goal with H : Strptime.is_digit _ = true |- _ =>
    apply digit_bound in H end. lia.
Qed.

Lemma format_re_bound (s r : list ascii) (d m y : nat) :
  In ((d, m, y), r) (Strptime.format_re s) ->
  1 <= d <= 31 /\ 1 <= m <= 12 /\ (Z.of_nat y <= 9999)%Z.
Proof.
  unfold Strptime.format_re, Strptime.seq_. intros H.
  apply in_flat_map in H. destruct H as ([dv r1] & Hd & H). cbn [fst snd] in H.
  apply in_flat_map in H. destruct H as ([u1 r2] & _ & H). cbn [fst snd] in H.
  apply in_flat_map in H. destruct H as ([mv r3] & Hm & H). cbn [fst snd] in H.
  apply in_flat_map in H. destruct H as ([u2 r4] & _ & H). cbn [fst snd] in H.
  apply in_flat_map in H. destruct H as ([yv r5] & Hy & H). cbn [fst snd In] in H.
  destruct H as [H | []]. injection H as -> -> -> _.
  apply day_re_bound in Hd. apply month_re_bound in Hm. apply year_re_bound in Hy.
  tauto.
Qed.

Lemma days_in_month_bound (y m : nat) : 28 <= Strptime.days_in_month y m <= 31.
Proof.
  unfold Strptime.days_in_month.
  do 12 (destruct m as [| m]; [try destruct (Strptime.is_leap y); lia |]). lia.
Qed.

(** A date that [strptime] returns is a date of the calendar. *)
Lemma strptime_calendar (s : string) (dt : Strptime.date) :
  Strptime.strptime s = Ok dt ->
  (1 <= Z.of_nat (Strptime.year dt) <= 9999)%Z /\
  1 <= Strptime.month dt <= 12 /\
  1 <= Strptime.day dt <= Strptime.days_in_month (Strptime.year dt) (Strptime.month dt).
Proof.
  unfold Strptime.strptime.
  destruct (Strptime.format_re _) as [| [[[d m] y] rest] tl] eqn:E; [discriminate |].
  destruct rest; [| discriminate].
  destruct (Nat.eqb y 0) eqn:Ey; [discriminate |].
  destruct (Nat.ltb _ d) eqn:Ed; [discriminate |].
  intros H. inversion H. subst. simpl.
  apply Nat.eqb_neq in Ey. apply Nat.ltb_ge in Ed.
  destruct (format_re_bound (list_ascii_of_string s) [] d m y) as (Hd & Hm & Hy).
  { rewrite E. now left. }
  lia.
Qed.

Lemma day_re_padded (d1 d2 : ascii) (rest : list ascii) :
  Strptime.is_digit d1 = true -> Strptime.is_digit d2 = true ->
  1 <= 10 * Strptime.digit d1 + Strptime.digit d2 <= 31 ->
  exists tl, Strptime.day_re (d1 :: d2 :: rest)
             = (10 * Strptime.digit d1 + Strptime.digit d2, rest) :: tl.
Proof.
  intros H1 H2 Hr. apply digit_cases in H1, H2. simpl in H1, H2.
  repeat (destruct H1 as [<- | H1]);
    try (destruct H1);
    repeat (destruct H2 as [<- | H2]);
    try (destruct H2);
    first [eexists; reflexivity | exfalso; vm_compute in Hr; lia].
Qed.

Lemma month_re_padded (m1 m2 : ascii) (rest : list ascii) :
  Strptime.is_digit m1 = true -> Strptime.is_digit m2 = true ->
  1 <= 10 * Strptime.digit m1 + Strptime.digit m2 <= 12 ->
  exists tl, Strptime.month_re (m1 :: m2 :: rest)
             = (10 * Strptime.digit m1 + Strptime.digit m2, rest) :: tl.
Proof.
  intros H1 H2 Hr. apply digit_cases in H1, H2. simpl in H1, H2.
  repeat (destruct H1 as [<- | H1]);
    try (destruct H1);
    repeat (destruct H2 as [<- | H2]);
    try (destruct H2);
    first [eexists; reflexivity | exfalso; vm_compute in Hr; lia].
Qed.


Lemma format_re_padded (d1 d2 m1 m2 y1 y2 y3 y4 : ascii) :
  forallb Strptime.is_digit [d1; d2; m1; m2; y1; y2; y3; y4] = true ->
  1 <= 10 * Strptime.digit d1 + Strptime.digit d2 <= 31 ->
  1 <= 10 * Strptime.digit m1 + Strptime.digit m2 <= 12 ->
  exists tl,
    Strptime.format_re
      [d1; d2; "-"%char; m1; m2; "-"%char; y1; y2; y3; y4]
    = ((10 * Strptime.digit d1 + Strptime.digit d2,
        10 * Strptime.digit m1 + Strptime.digit m2,
        Text.year_of y1 y2 y3 y4), []) :: tl.
Proof.
  intros Hd Hday Hmonth. cbn [forallb] in Hd.
  repeat (apply andb_true_iff in Hd; destruct Hd as [? Hd]).
  destruct (day_re_padded d1 d2 ["-"%char; m1; m2; "-"%char; y1; y2; y3; y4])
    as [tld Ed]; try assumption.
  destruct (month_re_padded m1 m2 ["-"%char; y1; y2; y3; y4])
    as [tlm Em]; try assumption.
  unfold Strptime.format_re, Strptime.seq_. rewrite Ed.
  cbn [flat_map fst snd].
  change (Strptime.lit "-"%char ("-"%char :: ?r)) with [(tt, r)].
  cbn [flat_map fst snd]. rewrite Em. cbn [flat_map fst snd].
  change (Strptime.lit "-"%char ("-"%char :: ?r)) with [(tt, r)].
  cbn [flat_map fst snd]. unfold Strptime.year_re.
  repeat match goal with H : Strptime.is_digit _ = true |- _ => rewrite H; clear H end.
  cbn [andb flat_map fst snd app]. eexists. reflexivity.
Qed.

(** X5: every date of the calendar written as two digits, a hyphen, two
    digits, a hyphen and four digits is accepted and returned as it
    is. *)
Theorem validate_date_accepts_padded (d1 d2 m1 m2 y1 y2 y3 y4 : ascii) :
  forallb Strptime.is_digit [d1; d2; m1; m2; y1; y2; y3; y4] = true ->
  1 <= 10 * Strptime.digit m1 + Strptime.digit m2 <= 12 ->
  1 <= Text.year_of y1 y2 y3 y4 ->
  1 <= 10 * Strptime.digit d1 + Strptime.digit d2
    <= Strptime.days_in_month (Text.year_of y1 y2 y3 y4)
         (10 * Strptime.digit m1 + Strptime.digit m2) ->
  validate_date
    (string_of_list_ascii [d1; d2; "-"%char; m1; m2; "-"%char; y1; y2; y3; y4])
  = Ok (string_of_list_ascii [d1; d2; "-"%char; m1; m2; "-"%char; y1; y2; y3; y4]).
Proof.
  intros Hd Hm Hy Hday.
  pose proof (days_in_month_bound (Text.year_of y1 y2 y3 y4)
                (10 * Strptime.digit m1 + Strptime.digit m2)) as Hb.
  destruct (format_re_padded d1 d2 m1 m2 y1 y2 y3 y4 Hd) as [tl E]; [lia | lia |].
  unfold validate_date, Strptime.strptime.
  rewrite (list_ascii_of_string_of_list_ascii
             [d1; d2; "-"%char; m1; m2; "-"%char; y1; y2; y3; y4]), E.
  destruct (Nat.eqb_spec (Text.year_of y1 y2 y3 y4) 0) as [E0 | _]; [lia |].
  destruct (Nat.ltb_spec (Strptime.days_in_month (Text.year_of y1 y2 y3 y4)
                            (10 * Strptime.digit m1 + Strptime.digit m2))
                         (10 * Strptime.digit d1 + Strptime.digit d2)) as [Hlt | _];
    [lia | reflexivity].
Qed.

Lemma validate_date_accepts_padded_witness :
  validate_date "29-02-2024" = Ok "29-02-2024".
Proof.
  apply (validate_date_accepts_padded "2" "9" "0" "2" "2" "0" "2" "4");
    vm_compute; try reflexivity; lia.
Defined.

(** X6: an accepted text is returned as it is, and is the text of a
    date of the calendar: a year from 1 to 9999, a month from 1 to 12 and
    a day of that month. *)
Theorem validate_date_calendar (s r : string) :
  validate_date s = Ok r ->
  r = s /\
  exists dt, Strptime.strptime s = Ok dt /\
    (1 <= Z.of_nat (Strptime.year dt) <= 9999)%Z /\
    1 <= Strptime.month dt <= 12 /\
    1 <= Strptime.day dt
      <= Strptime.days_in_month (Strptime.year dt) (Strptime.month dt).
Proof.
  unfold validate_date.
  destruct (Strptime.strptime s) as [dt | e] eqn:E; cbn [bind try_except].
  - intros H. inversion H. split; [reflexivity |]. exists dt.
    split; [reflexivity |]. now apply (strptime_calendar s).
  - cbn [find_clause]. destruct (catches [ValueError] e); discriminate.
Qed.

Lemma validate_date_calendar_witness :
  exists dt, Strptime.strptime "1-1-2025" = Ok dt /\ Strptime.month dt = 1.
Proof.
  destruct (validate_date_calendar "1-1-2025" "1-1-2025" eq_refl)
    as (_ & dt & E & _).
  exists dt. split; [exact E |]. vm_compute in E. now inversion E.
Defined.


(** X9: the writer overwrites nothing: a cell that holds a value before
    the call holds it after the call, whatever the service does; and a
    cell that the call changes was empty, and lies in one of the five
    columns of the row that the writer takes, a row below every populated
    row. *)
Theorem append_to_sheet_never_overwrites (W : string) (x : expense) (b : backend)
    (r c : nat) :
  (forall v, cells b !! (r, c) = Some v ->
     cells (snd (append_to_sheet W x b)) !! (r, c) = Some v) /\
  (cells (snd (append_to_sheet W x b)) !! (r, c) <> cells b !! (r, c) ->
   cells b !! (r, c) = None /\
   r = Spec.append_row b /\ In c Spec.written_columns /\
   forall r' c' v, cells b !! (r', c') = Some v -> r' < r).
Proof.
  assert (Hdec : (r = Spec.append_row b /\ In c Spec.written_columns) \/
                 ~ (r = Spec.append_row b /\ In c Spec.written_columns)).
  { destruct (Nat.eq_dec r (Spec.append_row b)) as [Hr | Hr]; [| right; tauto].
    destruct (in_dec Nat.eq_dec c Spec.written_columns) as [Hc | Hc];
      [left | right]; tauto. }
  split.
  - intros v Hv. rewrite append_to_sheet_frame; [exact Hv |].
    intros [Hr _]. apply next_row_above in Hv. unfold Spec.append_row in Hr. lia.
  - intros Hchanged. destruct Hdec as [[Hr Hc] | Hout];
      [| exfalso; apply Hchanged; now apply append_to_sheet_frame].
    assert (Habove : forall r' c' v, cells b !! (r', c') = Some v -> r' < r).
    { intros r' c' v Hv. apply next_row_above in Hv.
      unfold Spec.append_row in Hr. lia. }
    split; [| tauto].
    destruct (cells b !! (r, c)) as [v |] eqn:Ev; [| reflexivity].
    apply Habove in Ev. lia.
Qed.

(** X10: when the writer returns, the next row to be taken is the one
    after, the rows above are as before, and the five cells of the row
    are populated. *)
Theorem append_to_sheet_next_row (W : string) (x : expense) (b b' : backend)
    (range : string) :
  append_to_sheet W x b = (Ok range, b') ->
  Spec.append_row b' = Spec.append_row b + 1 /\
  (forall r c, r < Spec.append_row b -> cells b' !! (r, c) = cells b !! (r, c)) /\
  (forall c, In c Spec.written_columns ->
     exists v, cells b' !! (Spec.append_row b, c) = Some v).
Proof.
  intros H.
  destruct (append_to_sheet_returns W x b b' range H) as (_ & f & Hf & _ & Hc).
  split; [| split].
  - unfold Spec.append_row in *. rewrite (next_row_succ (cells b')), Hc.
    rewrite last_row_write_cells. cbn [column_mapping].
    rewrite next_row_succ. lia.
  - intros r c Hr. rewrite Hc. cbn [column_mapping Spec.write_cells fst snd].
    rewrite !lookup_insert_ne; [reflexivity | intros E; inversion E; lia ..].
  - intros c Hin. rewrite Hc. cbn [column_mapping Spec.write_cells fst snd].
    simpl in Hin.
    destruct Hin as [<- | [<- | [<- | [<- | [<- | []]]]]]; eexists;
      repeat first [ apply lookup_insert_eq
                   | rewrite lookup_insert_ne by (intros E; inversion E) ].
Qed.

(** X11: after a failure in the middle of the updates the row that was
    begun is left behind: the next row to be taken is the one after,
    unless the very first update failed. *)
Theorem partial_row_is_skipped (W : string) (x : expense)
    (m : gmap (nat * nat) cell) (f : Float.t) (e : exn) (rest : list (option exn))
    (k : nat) :
  Float.of_string (amount x) = Ok f -> Float.finite f = true -> k < 5 ->
  Spec.append_row
    (snd (append_to_sheet W x (Backend m (repeat None (5 + k) ++ Some e :: rest))))
  = if Nat.eqb k 0 then Spec.next_row m else Spec.next_row m + 1.
Proof.
  intros Hfloat Hfin Hk.
  destruct (append_to_sheet_outcome W x
              (Backend m (repeat None (5 + k) ++ Some e :: rest))) as [-> _].
  change (repeat None (5 + k) ++ Some e :: rest)
    with (None :: None :: None :: None :: None :: (repeat None k ++ Some e :: rest)).
  rewrite write_row_connected. unfold Spec.fill_row, io_bind, lift.
  rewrite Hfloat, next_row_succ.
  rewrite (for_each_fails_at _ k (column_mapping x f) m e rest
             (column_mapping_letters x f)
             (all_compliant_firstn _ _ (column_mapping_compliant x f Hfin)) Hk).
  cbn [snd]. unfold Spec.append_row. cbn [cells].
  rewrite !next_row_succ, last_row_write_cells.
  destruct k as [| k]; [reflexivity |].
  cbn [column_mapping firstn Nat.eqb]. lia.
Qed.

(** X12: every exception of the writer is an [ExpenseError]; its message
    is that of the exception raised in the body, after the words for a
    failure of the service when that exception is an [APIError], and
    after the words for a failed insertion otherwise. *)
Theorem append_to_sheet_errors (W : string) (x : expense) (b : backend) (e' : exn) :
  fst (append_to_sheet W x b) = Raise e' ->
  exists e,
    fst (write_row W x b) = Raise e /\
    e' = Exn ExpenseError
           ((if exc_class_eqb (exn_class e) APIError
             then "Error al conectar con Google Sheets: "
             else "Error al insertar datos: ") +:+ exn_str e).
Proof.
  unfold append_to_sheet, io_try_except.
  destruct (write_row W x b) as [[range | e] b1]; [discriminate |].
  cbn [find_clause]. unfold catches at 1. cbn [existsb issubclass].
  rewrite orb_false_r. intros H. exists e. split; [reflexivity |].
  destruct (exc_class_eqb (exn_class e) APIError).
  - cbn [fst lift raise] in H. now inversion H.
  - rewrite catches_exception in H. cbn [fst lift raise] in H. now inversion H.
Qed.

Lemma validate_field_nonempty (v : pyval) (name r : string) :
  validate_field v name = Ok r -> r <> EmptyString /\ r = Str.strip (py_str v).
Proof.
  unfold validate_field. destruct (negb (truthy v)); [discriminate |].
  cbn [orb]. destruct (Str.strip (py_str v)) eqn:E; cbn [truthy Str.is_empty negb];
    [discriminate |].
  intros H. inversion H. split; [discriminate | reflexivity].
Qed.

Lemma validate_category_member (s r : string) :
  validate_category s = Ok r -> r = s /\ In r VALID_CATEGORIES.
Proof.
  unfold validate_category. destruct (str_in s VALID_CATEGORIES) eqn:E;
    cbn [negb]; [| discriminate].
  intros H. inversion H. subst. split; [reflexivity | now apply str_in_In].
Qed.

Lemma validate_amount_comma_or_point_witness :
  validate_amount "99.9" = Ok "99.90".
Proof.
  apply (proj1 (validate_amount_comma_or_point "99,9" "99.90")). reflexivity.
Defined.

Lemma validate_amount_rounds_to_nearest_witness :
  exists q,
    "0.12" = Text.cents q /\
    Decimal.of_string "0.12" = Ok (Decimal.Finite false q (-2)) /\
    (2 * Z.abs (125 - q * 10) <= 10)%Z /\
    ((2 * Z.abs (125 - q * 10) = 10)%Z -> Z.even q = true).
Proof.
  destruct (validate_amount_rounds_to_nearest "0,125" "0.12" 125 (-3) eq_refl eq_refl)
    as (q & Hv & Hr & _ & Hn).
  destruct Hn as [Hn Ht]; [lia |].
  exists q. split; [exact Hv | split; [exact Hr | split; [exact Hn | exact Ht]]].
Defined.

Lemma append_to_sheet_next_row_witness :
  Spec.append_row (snd (append_to_sheet "Sheet1" Sample.coffee Sample.header_sheet))
  = 3.
Proof.
  destruct (append_to_sheet_next_row "Sheet1" Sample.coffee Sample.header_sheet
              (snd (append_to_sheet "Sheet1" Sample.coffee Sample.header_sheet))
              "Sheet1!A2:H2" eq_refl) as (H & _).
  exact H.
Defined.

Lemma partial_row_is_skipped_witness :
  Spec.append_row
    (snd (append_to_sheet "Sheet1" Sample.coffee Sample.failing_third_update))
  = 3.
Proof.
  exact (partial_row_is_skipped "Sheet1" Sample.coffee Sample.header_cells
           (Float.Of "3.50" true) (Exn APIError "quota exceeded") [] 2
           eq_refl eq_refl ltac:(lia)).
Defined.

Lemma append_to_sheet_errors_witness :
  exists e,
    fst (write_row "Sheet1" Sample.coffee Sample.failing_third_update) = Raise e /\
    Exn ExpenseError "Error al conectar con Google Sheets: quota exceeded"
    = Exn ExpenseError
        ((if exc_class_eqb (exn_class e) APIError
          then "Error al conectar con Google Sheets: "
          else "Error al insertar datos: ") +:+ exn_str e).
Proof.
  exact (append_to_sheet_errors "Sheet1" Sample.coffee Sample.failing_third_update
           (Exn ExpenseError "Error al conectar con Google Sheets: quota exceeded")
           eq_refl).
Defined.

(** ** The parser and the handler, further *)

(** X7: an expense that the parser returns is validated in full: its date
    is a date that [validate_date] accepts, its category is one of the
    fixed categories, its amount is ["Infinity"] or has two decimal
    places, and its description and its account are not empty. *)
Theorem parse_payload_validated (json_loads : string -> result pyval)
    (event : pyval) (x : expense) :
  parse_payload json_loads event = Ok x ->
  validate_date (date x) = Ok (date x) /\
  description x <> EmptyString /\
  In (category x) VALID_CATEGORIES /\
  (amount x = "Infinity" \/ Spec.two_decimal_places (amount x) = true) /\
  account x <> EmptyString.
Proof.
  unfold parse_payload, try_except.
  match goal with |- match ?m with _ => _ end = _ -> _ =>
    destruct m as [y | e] eqn:E end.
  - intros H. inversion H. subst y. clear H.
    repeat match type of E with
    | bind _ _ = Ok _ =>
        let a := fresh "a" in let Ea := fresh "Ea" in
        apply bind_returns in E; destruct E as (a & Ea & E)
    end.
    inversion E. cbn [date description category amount account].
    repeat match goal with
    | H : validate_field _ _ = Ok _ |- _ => apply validate_field_nonempty in H
    | H : validate_category _ = Ok _ |- _ => apply validate_category_member in H
    end.
    repeat split; try tauto.
    + match goal with H : validate_date ?r = Ok ?d |- _ =>
        destruct (validate_date_unchanged r) as [Hd | Hd]; rewrite Hd in H;
        inversion H; subst; exact Hd end.
    + match goal with H : validate_amount ?r = Ok ?d |- _ =>
        destruct (validate_amount_shape r d H) as [-> | Hs];
        [now left | right; now apply amount_shape_two_decimals] end.
  - cbn [find_clause]. destruct (catches _ e); discriminate.
Qed.

Lemma parse_payload_validated_witness :
  In (category Sample.coffee) VALID_CATEGORIES /\
  Spec.two_decimal_places (amount Sample.coffee) = true.
Proof.
  destruct (parse_payload_validated Sample.json_loads Sample.coffee_event
              Sample.coffee eq_refl) as (_ & _ & Hc & [Ha | Ha] & _).
  - discriminate Ha.
  - split; assumption.
Defined.

(** X8: the outcome of the parser depends on the five fields of the body
    alone: two events whose bodies are mappings with the same values for
    the five fields are parsed alike, whatever else the bodies and the
    events hold, and however the body is given. *)
Theorem parse_payload_fields_only (json_loads : string -> result pyval)
    (event1 event2 : pyval) (b1 b2 : list (string * pyval)) :
  extract_body json_loads event1 = Ok (PDict b1) ->
  extract_body json_loads event2 = Ok (PDict b2) ->
  (forall key, In key Spec.required_fields -> Spec.field b1 key = Spec.field b2 key) ->
  parse_payload json_loads event1 = parse_payload json_loads event2.
Proof.
  intros H1 H2 Hf.
  rewrite (parse_payload_on_mapping _ _ _ H1), (parse_payload_on_mapping _ _ _ H2).
  unfold Spec.validate_fields.
  rewrite (Hf "date"), (Hf "description"), (Hf "category"), (Hf "amount"),
    (Hf "account") by (simpl; tauto).
  reflexivity.
Qed.

Lemma parse_payload_fields_only_witness :
  parse_payload Sample.json_loads
    (PDict (("requestId", PStr "r-1") :: Sample.coffee_body))
  = Ok Sample.coffee.
Proof.
  rewrite (parse_payload_fields_only Sample.json_loads
             (PDict (("requestId", PStr "r-1") :: Sample.coffee_body))
             Sample.coffee_event
             (("requestId", PStr "r-1") :: Sample.coffee_body)
             Sample.coffee_body eq_refl eq_refl).
  - reflexivity.
  - intros key Hin. simpl in Hin.
    destruct Hin as [<- | [<- | [<- | [<- | [<- | []]]]]]; reflexivity.
Defined.

(** X13: a validation error costs no call to the service: when the
    parser raises an [ExpenseError], the [try] statement of the handler
    answers 400 with the message of the error, and the service is as it
    was, cells and calls to come; so does the handler, for every event
    whose text is computed for the log. *)
Theorem validation_error_calls_nothing (json_loads : string -> result pyval)
    (json_dumps : pyval -> result string) (W : string) (event : pyval)
    (b : backend) (msg : string) :
  parse_payload json_loads event = raise ExpenseError msg ->
  respond json_loads W event b
    = (Ok (create_response 400 (PDict [ ("error", PStr msg) ])), b) /\
  (forall logged, json_dumps event = Ok logged ->
     lambda_handler json_loads json_dumps W event b
     = (Ok (create_response 400 (PDict [ ("error", PStr msg) ])), b)).
Proof.
  intros H.
  assert (Hr : respond json_loads W event b
               = (Ok (create_response 400 (PDict [ ("error", PStr msg) ])), b)).
  { unfold respond, io_try_except.
    now rewrite (handle_parse_raises json_loads W event b _ H). }
  split; [exact Hr |]. intros logged Hlog.
  now rewrite (lambda_handler_logged _ _ W event b logged Hlog).
Qed.

Lemma validation_error_calls_nothing_witness :
  lambda_handler Sample.json_loads Sample.json_dumps "Sheet1"
    (PDict [ ("body", PStr "{}") ]) Sample.failing_third_update
  = (Ok (create_response 400
           (PDict [ ("error", PStr "El campo 'date' es requerido") ])),
     Sample.failing_third_update).
Proof.
  apply (proj2 (validation_error_calls_nothing Sample.json_loads Sample.json_dumps
                  "Sheet1" (PDict [ ("body", PStr "{}") ])
                  Sample.failing_third_update "El campo 'date' es requerido"
                  eq_refl)
           (Json.dumps (PDict [ ("body", PStr "{}") ]))).
  reflexivity.
Defined.

(** X14: once the parser has returned an expense, the handler does not
    answer 500: for an event whose text is computed for the log, the
    answer is 200 when the writer returns, and otherwise 400 with the
    message of the [ExpenseError] that the writer raises; the service is
    left as the writer leaves it. *)
Theorem parsed_event_status (json_loads : string -> result pyval)
    (json_dumps : pyval -> result string) (W : string) (event : pyval)
    (logged : string) (x : expense) (b : backend) :
  parse_payload json_loads event = Ok x ->
  json_dumps event = Ok logged ->
  exists resp,
    lambda_handler json_loads json_dumps W event b
      = (Ok resp, snd (append_to_sheet W x b)) /\
    match fst (append_to_sheet W x b) with
    | Ok range => statusCode resp = 200%Z
    | Raise e =>
        exn_class e = ExpenseError /\
        resp = create_response 400 (PDict [ ("error", PStr (exn_str e)) ])
    end.
Proof.
  intros Hp Hlog. rewrite (lambda_handler_logged _ _ W event b logged Hlog).
  pose proof (handle_parsed json_loads W event b x Hp) as Hh.
  destruct (append_to_sheet W x b) as [[range | e] b'] eqn:Ea; cbn [fst snd].
  - destruct Hh as (resp & Hh & Hs). exists resp.
    unfold respond, io_try_except. rewrite Hh. split; [reflexivity | exact Hs].
  - assert (He : exists msg, e = Exn ExpenseError msg).
    { destruct (append_to_sheet_outcome W x b) as [_ Ho].
      destruct (fst (write_row W x b)); rewrite Ea in Ho; cbn [fst] in Ho;
        [discriminate | destruct Ho as [msg Ho]; exists msg; now inversion Ho]. }
    destruct He as [msg ->]. eexists.
    split; [apply respond_expense_error; exact Hh |].
    split; reflexivity.
Qed.

Lemma parsed_event_status_witness :
  exists resp,
    lambda_handler Sample.json_loads Sample.json_dumps "Sheet1" Sample.coffee_event
      Sample.failing_third_update
    = (Ok resp,
       snd (append_to_sheet "Sheet1" Sample.coffee Sample.failing_third_update)) /\
    resp = create_response 400
             (PDict [ ("error",
                       PStr "Error al conectar con Google Sheets: quota exceeded") ]).
Proof.
  destruct (parsed_event_status Sample.json_loads Sample.json_dumps "Sheet1"
              Sample.coffee_event (Json.dumps Sample.coffee_event) Sample.coffee
              Sample.failing_third_update eq_refl eq_refl) as (resp & E & H).
  exists resp. split; [exact E |].
  vm_compute in H. destruct H as [_ H]. rewrite H. vm_compute. reflexivity.
Defined.

Lemma handle_cells (json_loads : string -> result pyval) (W : string)
    (event : pyval) (b : backend) :
  snd (handle json_loads W event b) = b \/
  exists x, parse_payload json_loads event = Ok x /\
    snd (handle json_loads W event b) = snd (append_to_sheet W x b).
Proof.
  unfold handle, io_bind, lift.
  destruct (parse_payload json_loads event) as [x | e]; [| now left].
  right. exists x. split; [reflexivity |].
  destruct (append_to_sheet W x b) as [[range | e] b']; reflexivity.
Qed.

Lemma lambda_handler_backend (json_loads : string -> result pyval)
    (json_dumps : pyval -> result string) (W : string)
    (event : pyval) (b : backend) :
  snd (lambda_handler json_loads json_dumps W event b) = b \/
  snd (lambda_handler json_loads json_dumps W event b)
  = snd (handle json_loads W event b).
Proof.
  destruct (json_dumps event) as [logged | e] eqn:Elog.
  - right. rewrite (lambda_handler_logged _ _ W event b logged Elog).
    destruct (respond_returns json_loads W event b) as [resp ->]. reflexivity.
  - left. now rewrite (lambda_handler_log_raises _ _ W event b e Elog).
Qed.

(** X15: the handler changes no populated cell: whatever the event and
    whatever the service does, a cell that holds a value before the
    invocation holds the same value after it. *)
Theorem lambda_handler_keeps_cells (json_loads : string -> result pyval)
    (json_dumps : pyval -> result string) (W : string) (event : pyval)
    (b : backend) (r c : nat) (v : cell) :
  cells b !! (r, c) = Some v ->
  cells (snd (lambda_handler json_loads json_dumps W event b)) !! (r, c) = Some v.
Proof.
  intros Hv.
  destruct (lambda_handler_backend json_loads json_dumps W event b) as [-> | ->];
    [exact Hv |].
  destruct (handle_cells json_loads W event b) as [-> | (x & _ & ->)];
    [exact Hv |].
  rewrite append_to_sheet_frame; [exact Hv |].
  intros [Hr _]. apply next_row_above in Hv. unfold Spec.append_row in Hr. lia.
Qed.

Lemma lambda_handler_keeps_cells_witness :
  cells (snd (lambda_handler Sample.json_loads Sample.json_dumps "Sheet1"
                Sample.coffee_event
                (snd (append_to_sheet "Sheet1" Sample.coffee Sample.header_sheet))))
    !! (2, 3) = Some (CellStr "Coffee").
Proof.
  apply (lambda_handler_keeps_cells Sample.json_loads Sample.json_dumps "Sheet1"
           Sample.coffee_event
           (snd (append_to_sheet "Sheet1" Sample.coffee Sample.header_sheet)) 2 3).
  reflexivity.
Defined.

(** X16: an answer with status 200 means that the row is written: the
    event was parsed to an expense, and the five cells of the row taken
    hold its date, its description, its category, its amount as a number
    and its account. *)
Theorem lambda_handler_ok_is_written (json_loads : string -> result pyval)
    (json_dumps : pyval -> result string) (W : string) (event : pyval)
    (b b' : backend) (resp : response) :
  lambda_handler json_loads json_dumps W event b = (Ok resp, b') ->
  statusCode resp = 200%Z ->
  exists x f,
    parse_payload json_loads event = Ok x /\
    Float.of_string (amount x) = Ok f /\
    cells b' !! (Spec.append_row b, 1) = Some (CellStr (date x)) /\
    cells b' !! (Spec.append_row b, 3) = Some (CellStr (description x)) /\
    cells b' !! (Spec.append_row b, 4) = Some (CellStr (category x)) /\
    cells b' !! (Spec.append_row b, 7) = Some (CellFloat f) /\
    cells b' !! (Spec.append_row b, 8) = Some (CellStr (account x)).
Proof.
  destruct (json_dumps event) as [logged | e0] eqn:Elog;
    [| rewrite (lambda_handler_log_raises _ _ W event b e0 Elog); discriminate].
  rewrite (lambda_handler_logged _ _ W event b logged Elog).
  unfold respond, io_try_except.
  destruct (handle json_loads W event b) as [[resp0 | e] b0] eqn:Eh.
  - intros H _. inversion H. subst resp0 b0. clear H.
    unfold handle, io_bind, lift in Eh.
    destruct (parse_payload json_loads event) as [x | e]; [| discriminate].
    destruct (append_to_sheet W x b) as [[range | e] b1] eqn:Ea; [| discriminate].
    inversion Eh. subst b1.
    destruct (append_to_sheet_returns W x b b' range Ea) as (_ & f & Hf & _ & Hc).
    exists x, f. split; [reflexivity |]. split; [exact Hf |].
    rewrite Hc. cbn [column_mapping Spec.write_cells fst snd].
    repeat split;
      repeat first [ apply lookup_insert_eq
                   | rewrite lookup_insert_ne by (intros E; inversion E) ].
  - cbn [find_clause]. destruct (catches [ExpenseError] e).
    + intros H Hs. inversion H. subst resp. discriminate Hs.
    + rewrite catches_exception. intros H Hs. inversion H. subst resp.
      discriminate Hs.
Qed.

Lemma lambda_handler_ok_is_written_witness :
  exists x f,
    parse_payload Sample.json_loads Sample.coffee_event = Ok x /\
    Float.of_string (amount x) = Ok f /\
    cells (snd (lambda_handler Sample.json_loads Sample.json_dumps "Sheet1"
                  Sample.coffee_event Sample.header_sheet)) !! (2, 7)
      = Some (CellFloat f).
Proof.
  destruct (lambda_handler_ok_is_written Sample.json_loads Sample.json_dumps "Sheet1"
              Sample.coffee_event Sample.header_sheet
              (snd (lambda_handler Sample.json_loads Sample.json_dumps "Sheet1"
                      Sample.coffee_event Sample.header_sheet))
              (create_response 200
                 (PDict [ ("message",
                           PStr ("✅ Registro agregado exitosamente:" +:+ Str.newline
                             +:+ "📂 Categoría: Almuerzo" +:+ Str.newline
                             +:+ "📅 Fecha: 24-10-2025" +:+ Str.newline
                             +:+ "📝 Descripción: Coffee" +:+ Str.newline
                             +:+ "💰 Monto: $3.50" +:+ Str.newline
                             +:+ "🏦 Cuenta: Cash" +:+ Str.newline
                             +:+ "📊 Celda: Sheet1!A2:H2"));
                          ("data", PDict [ ("expense", expense_dict Sample.coffee);
                                           ("updated_range", PStr "Sheet1!A2:H2") ]) ]))
              eq_refl eq_refl)
    as (x & f & Hp & Hf & _ & _ & _ & H7 & _).
  exists x, f. split; [exact Hp | split; [exact Hf | exact H7]].
Defined.

(** X17: an event that is not a mapping is answered with 500: the parser
    raises [AttributeError] on its first access, the [try] statement of
    the handler answers 500, and the service is not called; so does the
    handler, for every event whose text is computed for the log. *)
Theorem non_mapping_event_internal_error (json_loads : string -> result pyval)
    (json_dumps : pyval -> result string) (W : string) (event : pyval)
    (b : backend) :
  Spec.is_mapping event = false ->
  respond json_loads W event b
    = (Ok (create_response 500
             (PDict [ ("error", PStr "Error interno del servidor") ])), b) /\
  (forall logged, json_dumps event = Ok logged ->
     lambda_handler json_loads json_dumps W event b
     = (Ok (create_response 500
              (PDict [ ("error", PStr "Error interno del servidor") ])), b)).
Proof.
  intros Hm.
  assert (Hp : parse_payload json_loads event
               = raise AttributeError
                   ("'" +:+ type_name event +:+ "' object has no attribute 'get'")).
  { destruct event; try discriminate; reflexivity. }
  assert (Hr : respond json_loads W event b
               = (Ok (create_response 500
                        (PDict [ ("error", PStr "Error interno del servidor") ])), b)).
  { unfold respond, io_try_except.
    now rewrite (handle_parse_raises _ W _ b _ Hp). }
  split; [exact Hr |]. intros logged Hlog.
  now rewrite (lambda_handler_logged _ _ W event b logged Hlog).
Qed.

Lemma non_mapping_event_internal_error_witness :
  lambda_handler Sample.json_loads Sample.json_dumps "Sheet1"
    (PList [Sample.coffee_event]) Sample.empty_sheet
  = (Ok (create_response 500
           (PDict [ ("error", PStr "Error interno del servidor") ])),
     Sample.empty_sheet).
Proof.
  apply (proj2 (non_mapping_event_internal_error Sample.json_loads Sample.json_dumps
                  "Sheet1" (PList [Sample.coffee_event]) Sample.empty_sheet eq_refl)
           (Json.dumps (PList [Sample.coffee_event]))).
  reflexivity.
Defined.

(** ** Trimming *)

Lemma drop_prefix_length (p : list nat) (s s' : list ascii) :
  Str.drop_prefix p s = Some s' -> length s = length p + length s'.
Proof.
  revert s. induction p as [| n p IH]; intros s; simpl.
  - intros H. now inversion H.
  - destruct s as [| c s]; [discriminate |].
    destruct (Nat.eqb _ n); [| discriminate].
    intros H. apply IH in H. simpl. lia.
Qed.

Lemma drop_prefix_app (p : list nat) (s s' ext : list ascii) :
  Str.drop_prefix p s = Some s' -> Str.drop_prefix p (s ++ ext) = Some (s' ++ ext).
Proof.
  revert s. induction p as [| n p IH]; intros s; simpl.
  - intros H. now inversion H.
  - destruct s as [| c s]; [discriminate |]. simpl.
    destruct (Nat.eqb _ n); [apply IH | discriminate].
Qed.

Lemma drop_any_shorter (pats : list (list nat)) (s s' : list ascii) :
  Forall (fun p => p <> []) pats ->
  Str.drop_any pats s = Some s' -> length s' < length s.
Proof.
  intros Hne. induction Hne as [| p pats Hp _ IH]; simpl; [discriminate |].
  destruct (Str.drop_prefix p s) as [t |] eqn:E; [| exact IH].
  intros H. inversion H. subst t. apply drop_prefix_length in E.
  destruct p; [contradiction | simpl in E; lia].
Qed.

Lemma drop_any_app (pats : list (list nat)) (s ext : list ascii) :
  Str.drop_any pats (s ++ ext) = None -> Str.drop_any pats s = None.
Proof.
  induction pats as [| p pats IH]; simpl; [reflexivity |].
  destruct (Str.drop_prefix p s) as [t |] eqn:E.
  - now rewrite (drop_prefix_app p s t ext E).
  - destruct (Str.drop_prefix p (s ++ ext)); [discriminate | exact IH].
Qed.

(** What is left after dropping has nothing more to drop, and is the end
    of what there was. *)
Lemma drop_while_done (pats : list (list nat)) (n : nat) (s : list ascii) :
  Forall (fun p => p <> []) pats -> length s <= n ->
  Str.drop_any pats (Str.drop_while n pats s) = None /\
  exists pre, s = pre ++ Str.drop_while n pats s.
Proof.
  intros Hne. revert s. induction n as [| n IH]; intros s Hlen.
  - destruct s; [| simpl in Hlen; lia]. split; [| now exists []].
    clear Hlen. induction Hne as [| p pats Hp _ IHp]; [reflexivity |].
    simpl. destruct p; [contradiction | exact IHp].
  - simpl. destruct (Str.drop_any pats s) as [s' |] eqn:E.
    + pose proof (drop_any_shorter pats s s' Hne E) as Hs.
      destruct (IH s' ltac:(lia)) as [Hd (pre & Hpre)]. split; [exact Hd |].
      assert (Hsuf : exists q, s = q ++ s').
      { clear -E. induction pats as [| p pats IHp]; simpl in E; [discriminate |].
        destruct (Str.drop_prefix p s) as [t |] eqn:Ep; [| now apply IHp].
        inversion E. subst t. clear -Ep. revert s Ep.
        induction p as [| k p IHq]; intros s Ep; simpl in Ep.
        - inversion Ep. now exists [].
        - destruct s as [| c s]; [discriminate |].
          destruct (Nat.eqb _ k); [| discriminate].
          destruct (IHq s Ep) as [q ->]. now exists (c :: q). }
      destruct Hsuf as [q ->]. exists (q ++ pre). rewrite <- app_assoc. now f_equal.
    + split; [exact E | now exists []].
Qed.

Lemma drop_while_fixed (pats : list (list nat)) (n : nat) (s : list ascii) :
  Str.drop_any pats s = None -> Str.drop_while n pats s = s.
Proof. intros H. destruct n; simpl; [reflexivity | now rewrite H]. Qed.

Lemma whitespace_nonempty :
  Forall (fun p : list nat => p <> []) Str.whitespace /\
  Forall (fun p : list nat => p <> []) (map (@rev nat) Str.whitespace).
Proof. split; repeat constructor; discriminate. Qed.

(** A trimmed text has no whitespace at either end, and trimming it
    again changes nothing. *)
Lemma strip_trimmed (s : string) :
  Str.drop_any Str.whitespace (list_ascii_of_string (Str.strip s)) = None /\
  Str.drop_any (map (@rev nat) Str.whitespace)
    (rev (list_ascii_of_string (Str.strip s))) = None /\
  Str.strip (Str.strip s) = Str.strip s.
Proof.
  destruct whitespace_nonempty as [Hw Hr].
  unfold Str.strip. rewrite !list_ascii_of_string_of_list_ascii.
  set (l := list_ascii_of_string s).
  destruct (drop_while_done Str.whitespace (length l) l Hw (Nat.le_refl _))
    as [Hl1 _].
  fold (Str.lstrip_list l) in Hl1. set (l1 := Str.lstrip_list l) in *.
  destruct (drop_while_done (map (@rev nat) Str.whitespace) (length l1) (rev l1) Hr)
    as [Hu (pre & Hpre)]; [now rewrite length_rev |].
  set (u := Str.drop_while (length l1) (map (@rev nat) Str.whitespace) (rev l1)) in *.
  assert (Et : Str.rstrip_list l1 = rev u) by reflexivity.
  rewrite Et.
  assert (Hhead : Str.drop_any Str.whitespace (rev u) = None).
  { apply (drop_any_app _ _ (rev pre)). rewrite <- rev_app_distr, <- Hpre.
    now rewrite rev_involutive. }
  split; [exact Hhead |]. split; [now rewrite rev_involutive |].
  f_equal. unfold Str.lstrip_list. rewrite (drop_while_fixed _ _ _ Hhead).
  unfold Str.rstrip_list. rewrite rev_involutive.
  now rewrite (drop_while_fixed _ _ _ Hu).
Qed.

(** X18: a field that [validate_field] returns has no whitespace at
    either end and is not empty, and [validate_field] returns it as it
    is when it is given again. *)
Theorem validate_field_trimmed (value : pyval) (field_name r : string) :
  validate_field value field_name = Ok r ->
  r <> EmptyString /\
  Str.drop_any Str.whitespace (list_ascii_of_string r) = None /\
  Str.drop_any (map (@rev nat) Str.whitespace) (rev (list_ascii_of_string r)) = None /\
  forall name, validate_field (PStr r) name = Ok r.
Proof.
  intros H. apply validate_field_nonempty in H. destruct H as [Hne ->].
  destruct (strip_trimmed (py_str value)) as (H1 & H2 & H3).
  split; [exact Hne |]. split; [exact H1 |]. split; [exact H2 |].
  intros name. unfold validate_field. cbn [py_str]. rewrite H3.
  destruct (Str.strip (py_str value)); [contradiction | reflexivity].
Qed.

Lemma validate_field_trimmed_witness :
  validate_field (PStr "Cash") "account" = Ok "Cash".
Proof.
  destruct (validate_field_trimmed (PStr "  Cash ") "account" "Cash" eq_refl)
    as (_ & _ & _ & H).
  apply H.
Defined.

(** ** The envelope of a response *)

Lemma no_c0_control_app (a b : string) :
  Text.no_c0_control (a +:+ b) = Text.no_c0_control a && Text.no_c0_control b.
Proof. unfold Text.no_c0_control. now rewrite list_ascii_app, forallb_app. Qed.

Lemma escape_char_no_c0_control (c : ascii) :
  Text.no_c0_control (Json.escape_char c) = true.
Proof.
  assert (Hall : forallb Text.escape_check (seq 0 256) = true)
    by (vm_compute; reflexivity).
  rewrite forallb_forall in Hall.
  specialize (Hall (nat_of_ascii c)).
  unfold Text.escape_check in Hall. rewrite ascii_nat_embedding in Hall.
  apply Hall. apply in_seq. pose proof (nat_ascii_bounded c). lia.
Qed.

Lemma encode_string_no_c0_control (s : string) :
  Text.no_c0_control (Json.encode_string s) = true.
Proof.
  unfold Json.encode_string. rewrite !no_c0_control_app.
  assert (H : Text.no_c0_control (Str.flat_map_chars Json.escape_char s) = true).
  { induction s as [| c s IH]; [reflexivity |].
    cbn [Str.flat_map_chars]. now rewrite no_c0_control_app, escape_char_no_c0_control. }
  rewrite H. reflexivity.
Qed.

Lemma error_body_no_c0_control (msg : string) :
  Text.no_c0_control (Json.dumps (PDict [ ("error", PStr msg) ])) = true.
Proof.
  cbn [Json.dumps map fst snd Str.join String.concat].
  rewrite !no_c0_control_app, !encode_string_no_c0_control. reflexivity.
Qed.

(** X19: every response that the handler returns has the status 200,
    400 or 500, the two headers of the response builder, and a body on
    one line: the JSON text has no character below U+0020, the line feeds
    of the message of success being escaped. *)
Theorem lambda_handler_envelope (json_loads : string -> result pyval)
    (json_dumps : pyval -> result string) (W : string)
    (event : pyval) (b b' : backend) (resp : response) :
  lambda_handler json_loads json_dumps W event b = (Ok resp, b') ->
  In (statusCode resp) [200%Z; 400%Z; 500%Z] /\
  headers resp = [ ("Content-Type", "application/json");
                   ("Access-Control-Allow-Origin", "*") ] /\
  Text.no_c0_control (body resp) = true.
Proof.
  destruct (json_dumps event) as [logged | e0] eqn:Elog;
    [| rewrite (lambda_handler_log_raises _ _ W event b e0 Elog); discriminate].
  rewrite (lambda_handler_logged _ _ W event b logged Elog).
  unfold respond, io_try_except.
  destruct (handle json_loads W event b) as [[resp0 | e] b0] eqn:Eh.
  - intros H. inversion H. subst resp0 b0. clear H.
    unfold handle, io_bind, lift in Eh.
    destruct (parse_payload json_loads event) as [x | e]; [| discriminate].
    destruct (append_to_sheet W x b) as [[range | e] b1]; [| discriminate].
    inversion Eh. split; [simpl; tauto |]. split; [reflexivity |].
    cbn [body create_response Json.dumps expense_dict map fst snd Str.join
         String.concat].
    rewrite !no_c0_control_app, !encode_string_no_c0_control. reflexivity.
  - cbn [find_clause]. destruct (catches [ExpenseError] e).
    + intros H. inversion H. split; [simpl; tauto |].
      split; [reflexivity | apply error_body_no_c0_control].
    + rewrite catches_exception. intros H. inversion H.
      split; [simpl; tauto |]. split; [reflexivity | reflexivity].
Qed.

Lemma lambda_handler_envelope_witness :
  Text.no_c0_control
    (body (create_response 200
             (PDict [ ("message",
                       PStr ("✅ Registro agregado exitosamente:" +:+ Str.newline
                         +:+ "📂 Categoría: Almuerzo" +:+ Str.newline
                         +:+ "📅 Fecha: 24-10-2025" +:+ Str.newline
                         +:+ "📝 Descripción: Coffee" +:+ Str.newline
                         +:+ "💰 Monto: $3.50" +:+ Str.newline
                         +:+ "🏦 Cuenta: Cash" +:+ Str.newline
                         +:+ "📊 Celda: Sheet1!A2:H2"));
                      ("data", PDict [ ("expense", expense_dict Sample.coffee);
                                       ("updated_range", PStr "Sheet1!A2:H2") ]) ])))
  = true.
Proof.
  apply (lambda_handler_envelope Sample.json_loads Sample.json_dumps "Sheet1"
           Sample.coffee_event Sample.header_sheet
           (snd (lambda_handler Sample.json_loads Sample.json_dumps "Sheet1"
                   Sample.coffee_event Sample.header_sheet))).
  reflexivity.
Defined.
